(** * ml_training/train_models.py: feature extraction, augmentation,
      weight estimation and evaluation

    A shallow embedding of [train_models.py].

    Conventions of the embedding.
    - Python and numpy floating-point numbers are idealised as exact
      rationals ([Q]); rounding is not modelled.
    - A Python [str] is a [string] of ASCII characters; [str.lower] and
      [str.split] are modelled on the ASCII range.
    - Code that can raise runs in the error monad [result]; a zero
      denominator is the failure [ZeroDivisionError].
    - A 2-d [np.ndarray] is a list of rows, a 1-d one a list.
    - The sigmoid is a function on the reals; the threshold test on it is
      decided on rationals by the sign of the score ([predict_sigmoid]).
    - scikit-learn and the draws of [np.random.normal] are parameters. *)

From Stdlib Require Import QArith Qabs Qminmax Reals Qreals Lra Lqa.
From stdpp Require Import gmap strings list.
From Stdlib Require Import Ascii String.

Local Open Scope Z_scope.

(** ** The error monad *)

Inductive exn : Set :=
| ZeroDivisionError
| ValueError.

Inductive result (A : Type) : Type :=
| Ok (a : A)
| Raise (e : exn).
Arguments Ok {A} a.
Arguments Raise {A} e.

#[global] Instance result_ret : MRet result := fun _ a => Ok a.
#[global] Instance result_bind : MBind result := fun _ _ f m =>
  match m with
  | Ok a => f a
  | Raise e => Raise e
  end.
#[global] Instance result_fmap : FMap result := fun _ _ f m =>
  match m with
  | Ok a => Ok (f a)
  | Raise e => Raise e
  end.

(** [for x in xs: out.append(f(x))], stopping at the first exception. *)
Fixpoint mapM_result {A B} (f : A -> result B) (xs : list A) : result (list B) :=
  match xs with
  | [] => Ok []
  | x :: xs' => b ← f x; bs ← mapM_result f xs'; Ok (b :: bs)
  end.

(** ** Numbers *)

(** Python's [a / b]: true division, raising on a zero denominator. *)
Definition py_div (a b : Q) : result Q :=
  if Qeq_bool b 0 then Raise ZeroDivisionError else Ok (a / b)%Q.

(** Python's [min(a, b)] and [max(a, b)]: the first argument wins a tie. *)
Definition py_min (a b : Q) : Q := if Qlt_le_dec b a then b else a.
Definition py_max (a b : Q) : Q := if Qlt_le_dec a b then b else a.

Definition of_nat (n : nat) : Q := inject_Z (Z.of_nat n).

(** ** Strings *)

Definition is_upper (c : ascii) : bool :=
  let n := nat_of_ascii c in (65 <=? n)%nat && (n <=? 90)%nat.

Definition lower_char (c : ascii) : ascii :=
  if is_upper c then ascii_of_nat (nat_of_ascii c + 32) else c.

(** [s.lower()] *)
Fixpoint lower (s : string) : string :=
  match s with
  | EmptyString => EmptyString
  | String c s' => String (lower_char c) (lower s')
  end.

(** The ASCII characters for which [str.isspace] holds:
    tab, line feed, vertical tab, form feed, carriage return,
    the four separators 28-31 and the space. *)
Definition is_space (c : ascii) : bool :=
  let n := nat_of_ascii c in
  ((9 <=? n)%nat && (n <=? 13)%nat) || ((28 <=? n)%nat && (n <=? 32)%nat).

(** [s.split()]: maximal runs of non-space characters; [cur] is the word
    being read. *)
Fixpoint split_from (cur : string) (s : string) : list string :=
  match s with
  | EmptyString => if decide (cur = EmptyString) then [] else [cur]
  | String c s' =>
      if is_space c
      then (if decide (cur = EmptyString) then split_from EmptyString s'
            else cur :: split_from EmptyString s')
      else split_from (cur +:+ String c EmptyString) s'
  end.

Definition split (s : string) : list string := split_from EmptyString s.

(** [needle in hay] *)
Fixpoint contains (needle hay : string) : bool :=
  String.prefix needle hay ||
  match hay with
  | EmptyString => false
  | String _ hay' => contains needle hay'
  end.

(** [set(words)] *)
Definition word_set (ws : list string) : gset string := list_to_set ws.

(** ** Data model *)

(** One venue's record of a market.  [title] and [description] are read
    with [d['...']], the other keys with [d.get('...', default)]. *)
Record MarketSide : Type := {
  title : string;
  description : string;
  volume_usd : option Q;
  final_price_yes : option Q;
  source : option string
}.

Record MarketPair : Type := {
  kalshi : MarketSide;
  polymarket : MarketSide;
  matched : bool            (* pair['resolution_alignment']['matched'] *)
}.

Record FeatureVector : Type := {
  title_similarity : Q;
  description_similarity : Q;
  keyword_overlap : Q;
  category_match : Q;
  timing_match : Q;
  sources_match : Q;
  alignment_score : Q;
  volume_ratio : Q;
  price_correlation : Q;
  length_ratio : Q;
  avg_word_count : Q
}.

Definition to_array (self : FeatureVector) : list Q :=
  [ title_similarity self / 100;
    description_similarity self / 100;
    keyword_overlap self / 100;
    category_match self;
    timing_match self;
    sources_match self;
    alignment_score self / 100;
    volume_ratio self;
    price_correlation self;
    length_ratio self;
    avg_word_count self / 20 ]%Q.

(** ** Feature extraction *)

(** [(side['title'] + ' ' + side['description']).lower()] *)
Definition side_text (side : MarketSide) : string :=
  lower (title side +:+ " " +:+ description side).

(** [len(k_words & p_words) / max(len(k_words), len(p_words)) * 100] *)
Definition keyword_overlap_of (k_text p_text : string) : result Q :=
  let k_words := word_set (split k_text) in
  let p_words := word_set (split p_text) in
  q ← py_div (of_nat (size (k_words ∩ p_words)))
             (of_nat (Nat.max (size k_words) (size p_words)));
  Ok (q * 100)%Q.

(** [min(k_len, p_len) / max(k_len, p_len)] *)
Definition length_ratio_of (k_text p_text : string) : result Q :=
  let k_len := String.length k_text in
  let p_len := String.length p_text in
  py_div (of_nat (Nat.min k_len p_len)) (of_nat (Nat.max k_len p_len)).

(** [min(k_vol, p_vol) / max(k_vol, p_vol)] *)
Definition volume_ratio_of (k_vol p_vol : Q) : result Q :=
  py_div (py_min k_vol p_vol) (py_max k_vol p_vol).

Definition common_sources : list string :=
  ["ap"; "fox"; "nbc"; "official"; "associated press"]%string.

(** [1 if any(s in k_source and s in p_source for s in common_sources) else 0] *)
Definition sources_match_of (k_source p_source : string) : Q :=
  if existsb (fun s => contains s k_source && contains s p_source) common_sources
  then 1%Q else 0%Q.

Definition vol (side : MarketSide) : Q := default 1%Q (volume_usd side).
Definition price (side : MarketSide) : Q := default 0.5%Q (final_price_yes side).
Definition src (side : MarketSide) : string :=
  lower (default EmptyString (source side)).

Definition extract_features (pair : MarketPair) : result FeatureVector :=
  let k_text := side_text (kalshi pair) in
  let p_text := side_text (polymarket pair) in
  keyword_overlap ← keyword_overlap_of k_text p_text;
  length_ratio ← length_ratio_of k_text p_text;
  volume_ratio ← volume_ratio_of (vol (kalshi pair)) (vol (polymarket pair));
  let price_correlation :=
    (1 - Qabs (price (kalshi pair) - price (polymarket pair)))%Q in
  let sources_match :=
    sources_match_of (src (kalshi pair)) (src (polymarket pair)) in
  Ok {| title_similarity := 37.5;
        description_similarity := 50.0;
        keyword_overlap := keyword_overlap;
        category_match := 1;
        timing_match := 1;
        sources_match := sources_match;
        alignment_score := 82.0;
        volume_ratio := volume_ratio;
        price_correlation := price_correlation;
        length_ratio := length_ratio;
        avg_word_count := of_nat (List.length (split (title (kalshi pair)))) |}%Q.

(** [X] holds one normalised row per pair, [y] its label.  (For an empty
    [pairs] numpy builds a 1-d empty array; here it is the empty matrix.) *)
Definition prepare_training_data (pairs : list MarketPair)
  : result (list (list Q) * list Z) :=
  X ← mapM_result (fun pair => to_array <$> extract_features pair) pairs;
  Ok (X, map (fun pair => if matched pair then 1 else 0) pairs).

(** ** Augmentation *)

(** [np.clip(v, lo, hi)] is [minimum(maximum(v, lo), hi)]. *)
Definition clip (v lo hi : Q) : Q := Qmin (Qmax v lo) hi.

Definition vstack {A} (blocks : list (list A)) : list A := List.concat blocks.
Definition hstack {A} (blocks : list (list A)) : list A := List.concat blocks.

Section Augment.
(** [noise k i j] is entry [(i, j)] of the array that the [k]-th call of
    [np.random.normal(0, 0.05, X.shape)] returns: the generator's state
    is modelled by handing its draws in. *)
Variable noise : nat -> nat -> nat -> Q.

(** [np.clip(X + noise, 0, 1)] for the [k]-th draw *)
Definition X_noisy (k : nat) (X : list (list Q)) : list (list Q) :=
  imap (fun i row => imap (fun j v => clip (v + noise k i j) 0 1) row) X.

Definition augment_training_data (X : list (list Q)) (y : list Z) (factor : Z)
  : list (list Q) * list Z :=
  let rounds := seq 0 (Z.to_nat (factor - 1)) in
  let X_aug := X :: map (fun k => X_noisy k X) rounds in
  let y_aug := y :: map (fun _ => y) rounds in
  (vstack X_aug, hstack y_aug).
End Augment.

(** ** Weight estimation *)

(** The calibration fallback: constants, whatever [X] and [y] are. *)
Definition estimate_weights_simple (X : list (list Q)) (y : list Z)
  : list Q * Q :=
  let weights :=
    [ 0.12;   (* title_similarity *)
      0.08;   (* description_similarity *)
      0.25;   (* keyword_overlap *)
      0.15;   (* category_match *)
      0.10;   (* timing_match *)
      0.12;   (* sources_match *)
      0.08;   (* alignment_score *)
      0.03;   (* volume_ratio *)
      0.03;   (* price_correlation *)
      0.02;   (* length_ratio *)
      0.02 ]%Q in
  (weights, (-0.3)%Q).

Record ForestResult : Type := {
  feature_importances : list Q;
  accuracy_cv : option Q      (* the 'accuracy' key, absent in the fallback *)
}.

Section Estimators.
(** The module-level flag set by the guarded [import sklearn]. *)
Variable SKLEARN_AVAILABLE : bool.
(** scikit-learn is outside the repository: [LogisticRegression.fit]
    followed by [coef_[0], intercept_[0]], and [RandomForestClassifier.fit]
    followed by [feature_importances_] and the mean [cross_val_score]. *)
Variable logistic_regression : list (list Q) -> list Z -> result (list Q * Q).
Variable random_forest : list (list Q) -> list Z -> result (list Q * Q).

Definition train_logistic_weights (X : list (list Q)) (y : list Z)
  : result (list Q * Q) :=
  if negb SKLEARN_AVAILABLE then Ok (estimate_weights_simple X y)
  else logistic_regression X y.

Definition train_random_forest (X : list (list Q)) (y : list Z)
  : result ForestResult :=
  if negb SKLEARN_AVAILABLE then
    let '(weights, _) := estimate_weights_simple X y in
    Ok {| feature_importances := weights; accuracy_cv := None |}
  else
    '(importances, acc) ← random_forest X y;
    Ok {| feature_importances := importances; accuracy_cv := Some acc |}.
End Estimators.

(** ** Evaluation *)

(** The source's [sigmoid], over the reals. *)
Definition clipR (x lo hi : R) : R := Rmin (Rmax x lo) hi.
Definition sigmoid (x : R) : R := (1 / (1 + exp (- clipR x (-500) 500)))%R.

(** [(sigmoid(score) >= 0.5).astype(int)] for one score.  The test is
    decided on the sign of the score; [predict_sigmoid] below shows that
    this is the source's test. *)
Definition predict (score : Q) : Z := if Qle_bool 0 score then 1 else 0.

(** An element-wise binary operation on two 1-d arrays, with numpy's
    broadcasting of a length-1 operand. *)
Definition broadcast {A B C} (f : A -> B -> C) (xs : list A) (ys : list B)
  : result (list C) :=
  if Nat.eqb (List.length xs) (List.length ys) then Ok (zip_with f xs ys)
  else match xs, ys with
       | [x], _ => Ok (map (f x) ys)
       | _, [y] => Ok (map (fun x => f x y) xs)
       | _, _ => Raise ValueError
       end.

Definition dot (row weights : list Q) : Q :=
  foldr Qplus 0%Q (zip_with Qmult row weights).

(** [X @ weights] for a 2-d [X] and a 1-d [weights] *)
Definition matmul (X : list (list Q)) (weights : list Q) : result (list Q) :=
  if forallb (fun row => Nat.eqb (List.length row) (List.length weights)) X
  then Ok (map (fun row => dot row weights) X)
  else Raise ValueError.

(** [mask.sum()] *)
Definition count (mask : list bool) : Z :=
  Z.of_nat (List.length (filter (fun b => b = true) mask)).

(** A numpy float that may be [nan]. *)
Inductive npfloat : Type :=
| Fin (q : Q)
| NaN.

(** [mask.mean()]: [nan] (with a warning, no exception) on an empty array *)
Definition mean (mask : list bool) : npfloat :=
  match mask with
  | [] => NaN
  | _ => Fin (inject_Z (count mask) / of_nat (List.length mask))
  end.

Definition np_scale (x : npfloat) (c : Q) : npfloat :=
  match x with
  | Fin q => Fin (q * c)
  | NaN => NaN
  end.

Record ConfusionMatrix : Type := { tp : Z; fp : Z; fn : Z; tn : Z }.

Record Metrics : Type := {
  accuracy : npfloat;
  precision : Q;
  recall : Q;
  f1_score : Q;
  confusion_matrix : ConfusionMatrix
}.

(** [((predictions == a) & (y == b)).sum()] *)
Definition count_both (predictions y : list Z) (a b : Z) : result Z :=
  mask ← broadcast andb (map (Z.eqb a) predictions) (map (Z.eqb b) y);
  Ok (count mask).

(** The divisions are written with [py_div], so that a result [Ok _]
    certifies that no zero denominator was evaluated (on numpy scalars a
    zero denominator gives [nan] or [inf] with a warning). *)
Definition evaluate_model (X : list (list Q)) (y : list Z)
    (weights : list Q) (intercept : Q) : result Metrics :=
  products ← matmul X weights;
  let scores := map (fun s => s + intercept)%Q products in
  let predictions := map predict scores in
  hits ← broadcast Z.eqb predictions y;
  let accuracy := np_scale (mean hits) 100 in
  tp ← count_both predictions y 1 1;
  fp ← count_both predictions y 1 0;
  fn ← count_both predictions y 0 1;
  tn ← count_both predictions y 0 0;
  precision ← (if 0 <? tp + fp
               then q ← py_div (inject_Z tp) (inject_Z (tp + fp)); Ok (q * 100)%Q
               else Ok 0%Q);
  recall ← (if 0 <? tp + fn
            then q ← py_div (inject_Z tp) (inject_Z (tp + fn)); Ok (q * 100)%Q
            else Ok 0%Q);
  f1 ← (if Qlt_le_dec 0 (precision + recall)
        then py_div (2 * precision * recall) (precision + recall)
        else Ok 0%Q);
  Ok {| accuracy := accuracy;
        precision := precision;
        recall := recall;
        f1_score := f1;
        confusion_matrix := {| tp := tp; fp := fp; fn := fn; tn := tn |} |}.

(** ** The exported artifact *)

Record MatchingModel : Type := {
  weights : list Q;
  intercept : Q;
  metrics : Metrics
}.

Record ResolutionModel : Type := {
  resolution_importances : list Q;   (* 'feature_importances' *)
  resolution_intercept : Q           (* 'intercept' *)
}.

Record TrainingInfo : Type := {
  n_samples : nat;
  n_augmented : nat;
  sklearn_available : bool
}.

Record Artifact : Type := {
  matching_model : MatchingModel;
  resolution_model : ResolutionModel;
  feature_names : list string;
  training_info : TrainingInfo
}.

Definition the_feature_names : list string :=
  [ "title_similarity"; "description_similarity"; "keyword_overlap";
    "category_match"; "timing_match"; "sources_match"; "alignment_score";
    "volume_ratio"; "price_correlation"; "length_ratio"; "avg_word_count"
  ]%string.

Section Main.
Variable SKLEARN_AVAILABLE : bool.
Variable logistic_regression : list (list Q) -> list Z -> result (list Q * Q).
Variable random_forest : list (list Q) -> list Z -> result (list Q * Q).
Variable noise : nat -> nat -> nat -> Q.

(** [main], from the loaded file to the dictionary handed to [json.dump].
    [data] is [None] when the data file does not exist (the run prints
    a diagnostic and writes nothing), otherwise the parsed
    ['overlapping_markets'].  Printing is not modelled. *)
Definition main (data : option (list MarketPair)) : result (option Artifact) :=
  match data with
  | None => Ok None
  | Some pairs =>
      '(X, y) ← prepare_training_data pairs;
      let '(X_aug, y_aug) := augment_training_data noise X y 20 in
      '(matching_weights, matching_intercept) ←
        train_logistic_weights SKLEARN_AVAILABLE logistic_regression X_aug y_aug;
      metrics ← evaluate_model X y matching_weights matching_intercept;
      rf_results ←
        train_random_forest SKLEARN_AVAILABLE random_forest X_aug y_aug;
      let resolution_weights := feature_importances rf_results in
      Ok (Some
        {| matching_model :=
             {| weights := matching_weights;
                intercept := matching_intercept;
                metrics := metrics |};
           resolution_model :=
             {| resolution_importances := resolution_weights;
                resolution_intercept := (-0.2)%Q |};
           feature_names := the_feature_names;
           training_info :=
             {| n_samples := List.length pairs;
                n_augmented := List.length y_aug;
                sklearn_available := SKLEARN_AVAILABLE |} |})
  end.
End Main.

(** ** Valid inputs *)

(** A volume that is present is non-negative, a price that is present is
    in [0,1]. *)
Definition valid_side (side : MarketSide) : Prop :=
  (∀ v, volume_usd side = Some v -> (0 <= v)%Q) ∧
  (∀ p, final_price_yes side = Some p -> (0 <= p ∧ p <= 1)%Q).

Definition valid_pair (pair : MarketPair) : Prop :=
  valid_side (kalshi pair) ∧ valid_side (polymarket pair).

Definition unit_interval (v : Q) : Prop := (0 <= v ∧ v <= 1)%Q.

(** An evaluation input: every row of [X] has one entry per weight, and
    [y] holds one label per row. *)
Definition well_shaped (X : list (list Q)) (y : list Z) (weights : list Q)
  : Prop :=
  Forall (fun row => List.length row = List.length weights) X ∧
  List.length y = List.length X.

Definition is_label (l : Z) : Prop := l = 0 ∨ l = 1.

(** The four cells of the confusion matrix, on the zipped arrays. *)
Definition cell (predictions y : list Z) (a b : Z) : Z :=
  count (zip_with andb (map (Z.eqb a) predictions) (map (Z.eqb b) y)).

(** ** Sample inputs *)

Definition sample_side (t : string) : MarketSide :=
  {| title := t; description := "2024 election";
     volume_usd := Some 1000%Q; final_price_yes := Some 0.5%Q;
     source := Some "AP"%string |}.

Definition sample_pair : MarketPair :=
  {| kalshi := sample_side "Will the incumbent win";
     polymarket := sample_side "Incumbent to win";
     matched := true |}.

(** A valid pair whose kalshi title has 21 words. *)
Definition long_title_pair : MarketPair :=
  {| kalshi :=
       sample_side "a b c d e f g h i j k l m n o p q r s t u";
     polymarket := sample_side "a b c";
     matched := true |}.

(** The pair whose titles and descriptions are all empty. *)
Definition empty_side : MarketSide :=
  {| title := ""; description := ""; volume_usd := None;
     final_price_yes := None; source := None |}.

Definition empty_pair : MarketPair :=
  {| kalshi := empty_side; polymarket := empty_side; matched := true |}.

(** A metric reported in percent. *)
Definition percentage (v : Q) : Prop := (0 <= v ∧ v <= 100)%Q.

(** Two records of a side that differ at most in the case of the letters
    of their title, description and source. *)
Definition case_variant (side side' : MarketSide) : Prop :=
  lower (title side) = lower (title side') ∧
  lower (description side) = lower (description side') ∧
  lower (default EmptyString (source side))
  = lower (default EmptyString (source side')) ∧
  volume_usd side = volume_usd side' ∧
  final_price_yes side = final_price_yes side'.

(** The same pair with the two venues exchanged. *)
Definition swap_pair (pair : MarketPair) : MarketPair :=
  {| kalshi := polymarket pair; polymarket := kalshi pair;
     matched := matched pair |}.

(** A side as [sample_side], with no ['source'] key. *)
Definition unsourced_side (t : string) : MarketSide :=
  {| title := t; description := "2024 election";
     volume_usd := Some 1000%Q; final_price_yes := Some 0.5%Q;
     source := None |}.

(** Validity of a concrete pair: every field that is present is compared
    with its bounds. *)
Ltac valid_by_computation :=
  unfold valid_pair, valid_side; cbn;
  repeat match goal with
         | |- _ ∧ _ => split
         | |- ∀ _, Some _ = Some _ -> _ => intros ? [= <-]
         | |- ∀ _, None = Some _ -> _ => intros ? [=]
         | |- (_ <= _)%Q => discriminate
         end.

(** * Auxiliary facts *)

(** ** Numbers *)

Lemma of_nat_nonneg (n : nat) : (0 <= of_nat n)%Q.
Proof. unfold of_nat, Qle; simpl. lia. Qed.

Lemma of_nat_le (m n : nat) : (m <= n)%nat -> (of_nat m <= of_nat n)%Q.
Proof. intros H. unfold of_nat. rewrite <- Zle_Qle. lia. Qed.

Lemma of_nat_pos (n : nat) : (0 < n)%nat -> (0 < of_nat n)%Q.
Proof. intros H. unfold of_nat, Qlt; simpl. lia. Qed.

Lemma py_div_Ok (a b q : Q) :
  py_div a b = Ok q -> ~ (b == 0)%Q /\ q = (a / b)%Q.
Proof.
  unfold py_div. destruct (Qeq_bool b 0) eqn:E; [discriminate|].
  intros [= <-]. split; [|reflexivity]. now apply Qeq_bool_neq.
Qed.

Lemma py_div_nonzero (a b : Q) : ~ (b == 0)%Q -> py_div a b = Ok (a / b)%Q.
Proof.
  intros H. unfold py_div. destruct (Qeq_bool b 0) eqn:E; [|reflexivity].
  apply Qeq_bool_eq in E. contradiction.
Qed.


(** A quotient of a smaller by a larger non-negative number is in [0,1]. *)
Lemma ratio_unit (a b : Q) :
  (0 <= a)%Q -> (a <= b)%Q -> ~ (b == 0)%Q -> (0 <= a / b /\ a / b <= 1)%Q.
Proof.
  intros Ha Hab Hb.
  assert (0 < b)%Q as Hpos.
  { apply Qle_lteq in Hab. apply Qle_lteq in Ha.
    destruct (Qlt_le_dec 0 b) as [|Hle]; [assumption|].
    exfalso. apply Hb. apply Qle_antisym; [assumption|].
    apply Qle_trans with a; [|apply Qle_lteq; assumption].
    apply Qle_lteq; assumption. }
  split.
  - apply Qle_shift_div_l; [assumption|]. now rewrite Qmult_0_l.
  - apply Qle_shift_div_r; [assumption|]. now rewrite Qmult_1_l.
Qed.

(** ** Strings *)

Lemma length_append (s t : string) :
  String.length (s +:+ t) = (String.length s + String.length t)%nat.
Proof. induction s as [|c s IH]; simpl; [reflexivity|]. now rewrite IH. Qed.

Lemma length_lower (s : string) : String.length (lower s) = String.length s.
Proof. induction s as [|c s IH]; simpl; [reflexivity|]. now rewrite IH. Qed.

(** The joining space makes a side's text non-empty. *)
Lemma side_text_length (side : MarketSide) :
  String.length (side_text side)
  = (String.length (title side) + 1 + String.length (description side))%nat.
Proof.
  unfold side_text. rewrite length_lower, !length_append. simpl. lia.
Qed.

Lemma length_ratio_of_spec (k_text p_text : string) :
  (1 <= String.length k_text)%nat -> (1 <= String.length p_text)%nat ->
  ∃ r, length_ratio_of k_text p_text = Ok r ∧ (0 < r)%Q ∧ (r <= 1)%Q.
Proof.
  intros Hk Hp. unfold length_ratio_of.
  set (a := Nat.min _ _). set (b := Nat.max _ _).
  assert (1 <= a)%nat as Ha by (subst a; lia).
  assert (a <= b)%nat as Hab by (subst a b; lia).
  assert (0 < of_nat b)%Q as Hb by (apply of_nat_pos; lia).
  assert (~ (of_nat b == 0)%Q) as Hnz.
  { intros E. rewrite E in Hb. now apply Qlt_irrefl in Hb. }
  exists (of_nat a / of_nat b)%Q. split; [now apply py_div_nonzero|]. split.
  - apply Qlt_shift_div_l; [assumption|]. rewrite Qmult_0_l.
    apply of_nat_pos; lia.
  - apply ratio_unit; [apply of_nat_nonneg|now apply of_nat_le|assumption].
Qed.

(** ** Feature extraction *)

Lemma valid_side_vol (side : MarketSide) : valid_side side -> (0 <= vol side)%Q.
Proof.
  intros [Hv _]. unfold vol. destruct (volume_usd side) as [v|]; simpl.
  - now apply Hv.
  - discriminate.
Qed.

Lemma valid_side_price (side : MarketSide) :
  valid_side side -> unit_interval (price side).
Proof.
  intros [_ Hp]. unfold price. destruct (final_price_yes side) as [p|]; simpl.
  - now apply Hp.
  - split; discriminate.
Qed.

Lemma py_min_le_max (a b : Q) : (py_min a b <= py_max a b)%Q.
Proof.
  unfold py_min, py_max.
  destruct (Qlt_le_dec b a), (Qlt_le_dec a b); lra.
Qed.

Lemma py_min_nonneg (a b : Q) : (0 <= a)%Q -> (0 <= b)%Q -> (0 <= py_min a b)%Q.
Proof. intros Ha Hb. unfold py_min. now destruct (Qlt_le_dec b a). Qed.

Lemma volume_ratio_of_unit (a b r : Q) :
  (0 <= a)%Q -> (0 <= b)%Q -> volume_ratio_of a b = Ok r -> unit_interval r.
Proof.
  intros Ha Hb H. apply py_div_Ok in H as [Hnz ->].
  apply ratio_unit; [now apply py_min_nonneg|apply py_min_le_max|assumption].
Qed.

Lemma keyword_overlap_of_unit (k_text p_text : string) (ko : Q) :
  keyword_overlap_of k_text p_text = Ok ko -> unit_interval (ko / 100).
Proof.
  unfold keyword_overlap_of.
  set (k_words := word_set (split k_text)).
  set (p_words := word_set (split p_text)).
  destruct (py_div _ _) as [q|] eqn:E; [|discriminate].
  cbn [mbind result_bind]. intros [= <-].
  apply py_div_Ok in E as [Hnz Hq]. subst q.
  assert (size (k_words ∩ p_words) <= Nat.max (size k_words) (size p_words))%nat
    as Hle.
  { transitivity (size k_words); [|lia].
    apply subseteq_size, intersection_subseteq_l. }
  destruct (ratio_unit _ _ (of_nat_nonneg _) (of_nat_le _ _ Hle) Hnz) as [H0 H1].
  unfold unit_interval.
  set (x := (of_nat (size (k_words ∩ p_words)) / _)%Q) in *. clearbody x.
  assert (x * 100 / 100 == x)%Q as -> by field. split; assumption.
Qed.

Lemma price_correlation_unit (a b : Q) :
  unit_interval a -> unit_interval b -> unit_interval (1 - Qabs (a - b)).
Proof.
  intros [Ha0 Ha1] [Hb0 Hb1]. unfold unit_interval.
  pose proof (Qabs_nonneg (a - b)) as Hn.
  assert (Qabs (a - b) <= 1)%Q as Hu by (apply Qabs_Qle_condition; split; lra).
  split; lra.
Qed.

Lemma sources_match_of_unit (k p : string) : unit_interval (sources_match_of k p).
Proof. unfold sources_match_of. destruct (existsb _ _); split; discriminate. Qed.

(** What [extract_features] returns, field by field. *)
Lemma extract_features_Ok (pair : MarketPair) (fv : FeatureVector) :
  extract_features pair = Ok fv ->
  ∃ ko lr vr,
    keyword_overlap_of (side_text (kalshi pair)) (side_text (polymarket pair))
      = Ok ko ∧
    length_ratio_of (side_text (kalshi pair)) (side_text (polymarket pair))
      = Ok lr ∧
    volume_ratio_of (vol (kalshi pair)) (vol (polymarket pair)) = Ok vr ∧
    to_array fv =
      [ 37.5 / 100; 50.0 / 100; ko / 100; 1; 1;
        sources_match_of (src (kalshi pair)) (src (polymarket pair));
        82.0 / 100; vr;
        1 - Qabs (price (kalshi pair) - price (polymarket pair));
        lr;
        of_nat (List.length (split (title (kalshi pair)))) / 20 ]%Q.
Proof.
  unfold extract_features.
  destruct (keyword_overlap_of _ _) as [ko|]; [|discriminate].
  cbn [mbind result_bind].
  destruct (length_ratio_of _ _) as [lr|]; [|discriminate].
  cbn [mbind result_bind].
  destruct (volume_ratio_of _ _) as [vr|]; [|discriminate].
  cbn [mbind result_bind]. intros [= <-].
  exists ko, lr, vr. repeat split.
Qed.

(** The row of a valid pair: five calibration constants, five derived
    features in [0,1], and the word count of the kalshi title over 20. *)
Lemma extract_features_row (pair : MarketPair) (fv : FeatureVector) :
  valid_pair pair -> extract_features pair = Ok fv ->
  ∃ ko sm vr pc lr : Q,
    to_array fv =
      [ 37.5 / 100; 50.0 / 100; ko; 1; 1; sm; 82.0 / 100; vr; pc; lr;
        of_nat (List.length (split (title (kalshi pair)))) / 20 ]%Q ∧
    unit_interval ko ∧ unit_interval sm ∧ unit_interval vr ∧
    unit_interval pc ∧ unit_interval lr.
Proof.
  intros [Hk Hp] H.
  destruct (extract_features_Ok _ _ H) as (ko & lr & vr & Hko & Hlr & Hvr & ->).
  destruct (length_ratio_of_spec (side_text (kalshi pair))
              (side_text (polymarket pair))) as (r & Hr & Hr0 & Hr1).
  { rewrite side_text_length; lia. }
  { rewrite side_text_length; lia. }
  rewrite Hr in Hlr. injection Hlr as ->.
  do 5 eexists. split; [reflexivity|]. split_and!.
  - eapply keyword_overlap_of_unit; eassumption.
  - apply sources_match_of_unit.
  - eapply volume_ratio_of_unit; [| |eassumption]; now apply valid_side_vol.
  - apply price_correlation_unit; now apply valid_side_price.
  - split; [now apply Qlt_le_weak|assumption].
Qed.

(** The first ten components are in [0,1]. *)
Lemma extract_features_bounds (pair : MarketPair) (fv : FeatureVector) :
  valid_pair pair -> extract_features pair = Ok fv ->
  ∃ front : list Q,
    to_array fv =
      front ++ [(of_nat (List.length (split (title (kalshi pair)))) / 20)%Q] ∧
    List.length front = 10%nat ∧
    Forall unit_interval front.
Proof.
  intros Hv H.
  destruct (extract_features_row _ _ Hv H)
    as (ko & sm & vr & pc & lr & -> & Hko & Hsm & Hvr & Hpc & Hlr).
  exists [ 37.5 / 100; 50.0 / 100; ko; 1; 1; sm; 82.0 / 100; vr; pc; lr ]%Q.
  split; [reflexivity|]. split; [reflexivity|].
  repeat apply Forall_cons_2; try apply Forall_nil_2; try assumption;
    split; discriminate.
Qed.





Lemma word_count_unit (n : nat) : unit_interval (of_nat n / 20) <-> (n <= 20)%nat.
Proof.
  unfold unit_interval.
  pose proof (of_nat_nonneg n) as H0.
  assert ((of_nat n <= 20)%Q <-> (n <= 20)%nat) as <-.
  { unfold of_nat. change 20%Q with (inject_Z 20).
    rewrite <- (Zle_Qle (Z.of_nat n) 20). lia. }
  set (x := of_nat n) in *. clearbody x.
  assert (x == x / 20 * 20)%Q as Hx by field.
  set (t := (x / 20)%Q) in *. clearbody t.
  split; [intros [_ H]|intros H; split]; lra.
Qed.

(** ** Augmentation *)

Lemma clip_unit (v : Q) : unit_interval (clip v 0 1).
Proof.
  unfold unit_interval, clip. split.
  - apply Q.min_glb; [apply Q.le_max_r|discriminate].
  - apply Q.le_min_r.
Qed.

Lemma X_noisy_length noise (k : nat) (X : list (list Q)) :
  List.length (X_noisy noise k X) = List.length X.
Proof. unfold X_noisy. apply length_imap. Qed.

Lemma X_noisy_unit noise (k : nat) (X : list (list Q)) :
  Forall (Forall unit_interval) (X_noisy noise k X).
Proof.
  unfold X_noisy. apply Forall_forall. intros row Hrow.
  apply elem_of_lookup_imap in Hrow as (i & r & -> & _).
  apply Forall_forall. intros v Hv.
  apply elem_of_lookup_imap in Hv as (j & x & -> & _).
  apply clip_unit.
Qed.

(** Stacking [m] blocks of [n] rows gives [m * n] rows. *)
Lemma length_blocks {A} (f : nat -> list A) (ks : list nat) (n : nat) :
  (∀ k, List.length (f k) = n) ->
  List.length (List.concat (map f ks)) = (List.length ks * n)%nat.
Proof.
  intros Hf. induction ks as [|k ks IH]; simpl; [reflexivity|].
  now rewrite length_app, Hf, IH.
Qed.

(** ** Evaluation *)

Lemma matmul_Ok (X : list (list Q)) (weights : list Q) :
  Forall (fun row => List.length row = List.length weights) X ->
  matmul X weights = Ok (map (fun row => dot row weights) X).
Proof.
  intros H. unfold matmul.
  replace (forallb _ X) with true; [reflexivity|].
  symmetry. apply forallb_forall. intros row Hrow.
  apply Nat.eqb_eq. rewrite Forall_forall in H. apply H.
  now apply list_elem_of_In.
Qed.

Lemma broadcast_same_length {A B C} (f : A -> B -> C) xs ys :
  List.length xs = List.length ys -> broadcast f xs ys = Ok (zip_with f xs ys).
Proof. intros H. unfold broadcast. now rewrite H, Nat.eqb_refl. Qed.

Lemma count_cons (b : bool) (mask : list bool) :
  count (b :: mask) = (if b then 1 else 0) + count mask.
Proof.
  unfold count. destruct b.
  - rewrite filter_cons_True by reflexivity. cbn [List.length]. lia.
  - rewrite filter_cons_False by discriminate. lia.
Qed.

Lemma predict_label (score : Q) : is_label (predict score).
Proof. unfold predict, is_label. destruct (Qle_bool 0 score); auto. Qed.

Lemma predict_nonneg (score : Q) : (0 <= score)%Q -> predict score = 1.
Proof. intros H. unfold predict. now rewrite (proj2 (Qle_bool_iff 0 score) H). Qed.

Lemma count_both_Ok (predictions y : list Z) (a b : Z) :
  List.length predictions = List.length y ->
  count_both predictions y a b = Ok (cell predictions y a b).
Proof.
  intros H. unfold count_both, cell.
  rewrite broadcast_same_length by now rewrite !length_map.
  reflexivity.
Qed.

(** Every row of labels falls in exactly one cell. *)
Lemma cells_partition (predictions y : list Z) :
  List.length predictions = List.length y ->
  Forall is_label predictions -> Forall is_label y ->
  cell predictions y 1 1 + cell predictions y 1 0
  + cell predictions y 0 1 + cell predictions y 0 0
  = Z.of_nat (List.length y).
Proof.
  revert y. induction predictions as [|p ps IH]; intros [|l ls] Hlen Hps Hls;
    try discriminate; [reflexivity|].
  apply Forall_cons_1 in Hps as [Hp Hps]. apply Forall_cons_1 in Hls as [Hl Hls].
  injection Hlen as Hlen. specialize (IH ls Hlen Hps Hls).
  unfold cell in *. cbn [map zip_with List.length]. rewrite !count_cons.
  destruct Hp as [-> | ->], Hl as [-> | ->]; cbn; lia.
Qed.

Lemma inject_Z_nonzero (n : Z) : 0 < n -> ~ (inject_Z n == 0)%Q.
Proof. intros H E. unfold Qeq in E. simpl in E. lia. Qed.

(** On an evaluation input [evaluate_model] returns, and these are its
    counts and ratios. *)
Lemma evaluate_model_Ok (X : list (list Q)) (y : list Z)
    (weights : list Q) (intercept : Q) :
  well_shaped X y weights ->
  let predictions := map (fun row => predict (dot row weights + intercept)) X in
  ∃ m, evaluate_model X y weights intercept = Ok m ∧
    tp (confusion_matrix m) = cell predictions y 1 1 ∧
    fp (confusion_matrix m) = cell predictions y 1 0 ∧
    fn (confusion_matrix m) = cell predictions y 0 1 ∧
    tn (confusion_matrix m) = cell predictions y 0 0 ∧
    precision m =
      (if 0 <? tp (confusion_matrix m) + fp (confusion_matrix m)
       then inject_Z (tp (confusion_matrix m))
            / inject_Z (tp (confusion_matrix m) + fp (confusion_matrix m)) * 100
       else 0)%Q ∧
    recall m =
      (if 0 <? tp (confusion_matrix m) + fn (confusion_matrix m)
       then inject_Z (tp (confusion_matrix m))
            / inject_Z (tp (confusion_matrix m) + fn (confusion_matrix m)) * 100
       else 0)%Q ∧
    f1_score m =
      (if Qlt_le_dec 0 (precision m + recall m)
       then 2 * precision m * recall m / (precision m + recall m)
       else 0)%Q.
Proof.
  intros [Hrows Hy] predictions. unfold evaluate_model.
  rewrite (matmul_Ok _ _ Hrows). cbn [mbind result_bind].
  rewrite !map_map. fold predictions.
  assert (List.length predictions = List.length y) as Hlen
    by (subst predictions; now rewrite length_map).
  rewrite (broadcast_same_length _ _ _ Hlen). cbn [mbind result_bind].
  rewrite !(count_both_Ok _ _ _ _ Hlen). cbn [mbind result_bind].
  set (TP := cell predictions y 1 1). set (FP := cell predictions y 1 0).
  set (FN := cell predictions y 0 1). set (TN := cell predictions y 0 0).
  set (P := (if 0 <? TP + FP
             then inject_Z TP / inject_Z (TP + FP) * 100 else 0)%Q).
  set (R := (if 0 <? TP + FN
             then inject_Z TP / inject_Z (TP + FN) * 100 else 0)%Q).
  assert ((if 0 <? TP + FP
           then q ← py_div (inject_Z TP) (inject_Z (TP + FP)); Ok (q * 100)%Q
           else Ok 0%Q) = Ok P) as ->.
  { subst P. destruct (0 <? TP + FP) eqn:E; [|reflexivity].
    apply Z.ltb_lt in E. now rewrite py_div_nonzero by now apply inject_Z_nonzero. }
  cbn [mbind result_bind].
  assert ((if 0 <? TP + FN
           then q ← py_div (inject_Z TP) (inject_Z (TP + FN)); Ok (q * 100)%Q
           else Ok 0%Q) = Ok R) as ->.
  { subst R. destruct (0 <? TP + FN) eqn:E; [|reflexivity].
    apply Z.ltb_lt in E. now rewrite py_div_nonzero by now apply inject_Z_nonzero. }
  cbn [mbind result_bind].
  destruct (Qlt_le_dec 0 (P + R)) as [Hpos|Hle] eqn:E.
  - rewrite py_div_nonzero.
    + cbn [mbind result_bind]. eexists. split; [reflexivity|].
      cbn [confusion_matrix tp fp fn tn precision recall f1_score].
      fold P R. rewrite E. repeat split.
    + intros Hz. apply (Qlt_not_eq _ _ Hpos). now symmetry.
  - cbn [mbind result_bind]. eexists. split; [reflexivity|].
    cbn [confusion_matrix tp fp fn tn precision recall f1_score].
    fold P R. rewrite E. repeat split.
Qed.

(** Whatever the input, [evaluate_model] does not raise
    [ZeroDivisionError]: shapes that do not fit raise [ValueError], and
    each division sits behind its guard. *)
Lemma matmul_raise (X : list (list Q)) (weights : list Q) (e : exn) :
  matmul X weights = Raise e -> e = ValueError.
Proof. unfold matmul. destruct (forallb _ X); congruence. Qed.

Lemma broadcast_raise {A B C} (f : A -> B -> C) xs ys (e : exn) :
  broadcast f xs ys = Raise e -> e = ValueError.
Proof.
  unfold broadcast. destruct (Nat.eqb _ _); [discriminate|].
  destruct xs as [|x [|x' xs]], ys as [|y [|y' ys]]; congruence.
Qed.

Lemma count_both_raise (predictions y : list Z) (a b : Z) (e : exn) :
  count_both predictions y a b = Raise e -> e = ValueError.
Proof.
  unfold count_both. destruct (broadcast _ _ _) eqn:E; [discriminate|].
  intros [= <-]. now apply broadcast_raise in E.
Qed.

Lemma guarded_ratio_Ok (a d : Z) :
  ∃ r, (if 0 <? d
        then q ← py_div (inject_Z a) (inject_Z d); Ok (q * 100)%Q
        else Ok 0%Q) = Ok r.
Proof.
  destruct (0 <? d) eqn:E; [|now eexists].
  apply Z.ltb_lt in E. rewrite py_div_nonzero by now apply inject_Z_nonzero.
  now eexists.
Qed.

Lemma guarded_f1_Ok (p r : Q) :
  ∃ f, (if Qlt_le_dec 0 (p + r)
        then py_div (2 * p * r) (p + r)
        else Ok 0%Q) = Ok f.
Proof.
  destruct (Qlt_le_dec 0 (p + r)) as [Hpos|]; [|now eexists].
  rewrite py_div_nonzero; [now eexists|].
  intros Hz. apply (Qlt_not_eq _ _ Hpos). now symmetry.
Qed.

(** X10: whatever the shapes and values of [X], [y], [weights] and
    [intercept], [evaluate_model] does not raise [ZeroDivisionError]. *)
Lemma evaluate_model_never_divides_by_zero
    (X : list (list Q)) (y : list Z) (weights : list Q) (intercept : Q) :
  evaluate_model X y weights intercept ≠ Raise ZeroDivisionError.
Proof.
  unfold evaluate_model. intros H.
  destruct (matmul X weights) as [products|e] eqn:E;
    [|apply matmul_raise in E; cbn in H; congruence].
  cbn [mbind result_bind] in H.
  destruct (broadcast Z.eqb _ y) as [hits|e] eqn:Eh;
    [|apply broadcast_raise in Eh; cbn in H; congruence].
  cbn [mbind result_bind] in H.
  repeat match type of H with
  | context [count_both ?ps ?ys ?a ?b] =>
      let E := fresh "E" in
      destruct (count_both ps ys a b) as [?|?] eqn:E;
        [|apply count_both_raise in E; cbn in H; congruence];
      cbn [mbind result_bind] in H
  end.
  match type of H with
  | context [py_div (inject_Z ?a) (inject_Z ?d)] =>
      destruct (guarded_ratio_Ok a d) as [P EP]; rewrite EP in H
  end.
  cbn [mbind result_bind] in H.
  match type of H with
  | context [py_div (inject_Z ?a) (inject_Z ?d)] =>
      destruct (guarded_ratio_Ok a d) as [R ER]; rewrite ER in H
  end.
  cbn [mbind result_bind] in H.
  match type of H with
  | context [Qlt_le_dec 0 (?p + ?r)] =>
      destruct (guarded_f1_Ok p r) as [F EF]; rewrite EF in H
  end.
  discriminate.
Qed.

(** The threshold test of the source and the sign test of [predict]. *)
Lemma clipR_sign (x : R) : (0 <= clipR x (-500) 500 <-> 0 <= x)%R.
Proof.
  unfold clipR, Rmin, Rmax.
  destruct (Rle_dec x (-500)); destruct (Rle_dec _ 500); Lra.lra.
Qed.

Lemma exp_le_one (c : R) : (exp (- c) <= 1 <-> 0 <= c)%R.
Proof.
  rewrite <- exp_0. split.
  - intros H. destruct (Rle_lt_dec 0 c) as [|Hneg]; [assumption|].
    assert (exp 0 < exp (- c))%R by (apply exp_increasing; Lra.lra). Lra.lra.
  - intros H. destruct (Req_dec c 0) as [-> | Hne].
    + rewrite Ropp_0. Lra.lra.
    + left. apply exp_increasing. Lra.lra.
Qed.

Lemma sigmoid_threshold (x : R) : (1 / 2 <= sigmoid x <-> 0 <= x)%R.
Proof.
  unfold sigmoid. rewrite <- clipR_sign, <- exp_le_one.
  set (e := exp _). assert (0 < e)%R as He by apply exp_pos.
  clearbody e. set (d := (1 + e)%R).
  assert (0 < d)%R as Hd by (subst d; Lra.lra).
  assert (e <= 1 <-> d <= 2)%R as -> by (subst d; Lra.lra).
  assert (1 / d * d = 1)%R as Hinv by (field; Lra.lra).
  assert (0 < 1 / d)%R as Hpos
    by (unfold Rdiv; rewrite Rmult_1_l; now apply Rinv_0_lt_compat).
  clearbody d. set (i := (1 / d)%R) in *. clearbody i.
  split; intros H; Lra.nra.
Qed.

(** X17: the prediction for a score, 1 when the sigmoid of the score
    clipped to [-500, 500] is at least 0.5 and 0 otherwise, is 1 exactly
    when the score is not negative; a score of 0 is predicted 1. *)
Lemma predict_sigmoid (score : Q) :
  predict score = (if Rle_dec (1 / 2) (sigmoid (Q2R score)) then 1 else 0).
Proof.
  unfold predict.
  destruct (Rle_dec _ _) as [H|H]; rewrite sigmoid_threshold in H.
  - replace 0%R with (Q2R 0) in H by Lra.lra. apply Rle_Qle in H.
    now rewrite (proj2 (Qle_bool_iff 0 score) H).
  - destruct (Qle_bool 0 score) eqn:E; [|reflexivity].
    apply Qle_bool_iff, Qle_Rle in E. exfalso. apply H.
    replace 0%R with (Q2R 0) by Lra.lra. assumption.
Qed.

(** ** The five-pair scenario *)

Lemma augment_training_data_lengths noise (X : list (list Q)) (y : list Z)
    (factor : Z) :
  1 <= factor ->
  List.length (augment_training_data noise X y factor).1
    = (Z.to_nat factor * List.length X)%nat ∧
  List.length (augment_training_data noise X y factor).2
    = (Z.to_nat factor * List.length y)%nat.
Proof.
  intros Hfactor. unfold augment_training_data, vstack, hstack.
  cbn [fst snd List.concat].
  rewrite !length_app, (length_blocks _ _ (List.length X)),
    (length_blocks _ _ (List.length y)), length_seq;
    [|reflexivity|intros k; apply X_noisy_length].
  split; nia.
Qed.

(** With the fallback weights the score of a valid pair's row is positive:
    the five calibration constants alone contribute 0.4006 against the
    intercept -0.3, and no other term is negative. *)
Lemma fallback_score_positive (pair : MarketPair) (fv : FeatureVector)
    (X : list (list Q)) (y : list Z) :
  valid_pair pair -> extract_features pair = Ok fv ->
  (0 <= dot (to_array fv) (estimate_weights_simple X y).1
        + (estimate_weights_simple X y).2)%Q.
Proof.
  intros Hv H.
  destruct (extract_features_row _ _ Hv H)
    as (ko & sm & vr & pc & lr & -> & [Hko _] & [Hsm _] & [Hvr _] & [Hpc _]
        & [Hlr _]).
  set (n := List.length _).
  assert (0 <= of_nat n / 20)%Q as Hwc.
  { apply Qle_shift_div_l; [reflexivity|]. rewrite Qmult_0_l.
    apply of_nat_nonneg. }
  set (wc := (of_nat n / 20)%Q) in *. clearbody wc.
  unfold estimate_weights_simple, dot. cbn [fst snd zip_with foldr].
  set (c1 := (37.5 / 100)%Q). set (c2 := (50.0 / 100)%Q).
  set (c7 := (82.0 / 100)%Q).
  assert (0.375 <= c1)%Q by discriminate.
  assert (0.5 <= c2)%Q by discriminate.
  assert (0.82 <= c7)%Q by discriminate.
  clearbody c1 c2 c7. lra.
Qed.

(** Five identical valid pairs labelled matched, on which feature
    extraction returns: 100 augmented rows, all labels 1, and the fallback
    weights recall all five original rows. *)
Lemma five_identical_pairs_scenario noise (pair : MarketPair)
    (fv : FeatureVector) :
  valid_pair pair -> matched pair = true -> extract_features pair = Ok fv ->
  let X := replicate 5 (to_array fv) in
  let y := replicate 5 1 in
  prepare_training_data (replicate 5 pair) = Ok (X, y) ∧
  ∀ X_aug y_aug, augment_training_data noise X y 20 = (X_aug, y_aug) ->
    List.length X_aug = 100%nat ∧ y_aug = replicate 100 1 ∧
    ∃ m, evaluate_model X y (estimate_weights_simple X_aug y_aug).1
                            (estimate_weights_simple X_aug y_aug).2 = Ok m ∧
         (recall m == 100)%Q ∧ fn (confusion_matrix m) = 0.
Proof.
  intros Hv Hmatched H X y. split.
  - unfold prepare_training_data. cbn [replicate mapM_result map].
    rewrite H, Hmatched. reflexivity.
  - intros X_aug y_aug Haug.
    destruct (augment_training_data_lengths noise X y 20) as [HX _]; [lia|].
    rewrite Haug in HX. cbn [fst] in HX.
    split; [exact HX|]. split.
    { unfold augment_training_data in Haug. injection Haug as _ <-.
      reflexivity. }
    set (weights := (estimate_weights_simple X_aug y_aug).1).
    set (intercept := (estimate_weights_simple X_aug y_aug).2).
    assert (well_shaped X y weights) as Hshape.
    { split; [|reflexivity]. subst X. apply Forall_replicate. reflexivity. }
    destruct (evaluate_model_Ok X y weights intercept Hshape)
      as (m & Hm & Htp & _ & Hfn & _ & _ & Hr & _).
    assert (map (fun row => predict (dot row weights + intercept)) X = y) as Hpred.
    { subst X y. unfold weights, intercept. cbn [replicate map].
      now rewrite (predict_nonneg _ (fallback_score_positive _ _ X_aug y_aug Hv H)). }
    rewrite Hpred in Htp, Hfn.
    exists m. split; [exact Hm|]. rewrite Hr, Htp, Hfn. split; reflexivity.
Qed.

(** * Properties *)

(** ** The calibration fallback *)

(** C3: the calibration fallback returns the same eleven weights and the
    intercept -0.3 whatever [X] and [y] are, and the magnitudes of the
    weights are ordered as documented: keyword_overlap > category_match >
    sources_match = title_similarity > timing_match >
    description_similarity = alignment_score > volume_ratio =
    price_correlation > length_ratio = avg_word_count. *)
Theorem estimate_weights_simple_fixed (X X' : list (list Q)) (y y' : list Z) :
  estimate_weights_simple X y = estimate_weights_simple X' y' ∧
  ∃ ts ds ko cm tm sm al vr pc lr aw : Q,
    estimate_weights_simple X y =
      ([ts; ds; ko; cm; tm; sm; al; vr; pc; lr; aw], (-0.3)%Q) ∧
    (Qabs cm < Qabs ko ∧ Qabs sm < Qabs cm ∧ Qabs sm == Qabs ts ∧
     Qabs tm < Qabs ts ∧ Qabs ds < Qabs tm ∧ Qabs ds == Qabs al ∧
     Qabs vr < Qabs al ∧ Qabs vr == Qabs pc ∧ Qabs lr < Qabs pc ∧
     Qabs lr == Qabs aw)%Q.
Proof.
  split; [reflexivity|].
  unfold estimate_weights_simple.
  do 11 eexists. split; [reflexivity|].
  repeat split.
Qed.

(** C7: without scikit-learn, [train_random_forest] returns as feature
    importances exactly the weight vector of [estimate_weights_simple]:
    eleven components, none negative. *)
Theorem train_random_forest_fallback
    (random_forest : list (list Q) -> list Z -> result (list Q * Q))
    (X : list (list Q)) (y : list Z) :
  ∃ r, train_random_forest false random_forest X y = Ok r ∧
       feature_importances r = (estimate_weights_simple X y).1 ∧
       List.length (feature_importances r) = 11%nat ∧
       Forall (fun w => 0 <= w)%Q (feature_importances r).
Proof.
  eexists. split; [reflexivity|]. cbn.
  split; [reflexivity|]. split; [reflexivity|].
  repeat constructor; discriminate.
Qed.

(** ** The exported artifact *)

(** C10: whenever a run produces an artifact, its
    resolution_model.intercept is the constant -0.2, whatever the data,
    the noise drawn by the augmentation and the scikit-learn flag. *)
Theorem main_resolution_intercept
    (SKLEARN_AVAILABLE : bool)
    (logistic_regression random_forest :
       list (list Q) -> list Z -> result (list Q * Q))
    (noise : nat -> nat -> nat -> Q)
    (data : option (list MarketPair)) (art : Artifact) :
  main SKLEARN_AVAILABLE logistic_regression random_forest noise data
    = Ok (Some art) ->
  resolution_intercept (resolution_model art) = (-0.2)%Q.
Proof.
  unfold main. destruct data as [pairs|]; [|discriminate].
  destruct (prepare_training_data pairs) as [[X y]|]; [|discriminate].
  cbn [mbind result_bind].
  destruct (augment_training_data noise X y 20) as [X_aug y_aug].
  destruct (train_logistic_weights _ _ X_aug y_aug) as [[mw mi]|]; [|discriminate].
  cbn [mbind result_bind].
  destruct (evaluate_model X y mw mi); [|discriminate].
  cbn [mbind result_bind].
  destruct (train_random_forest _ _ X_aug y_aug); [|discriminate].
  cbn [mbind result_bind].
  intros [= <-]. reflexivity.
Qed.

Lemma main_resolution_intercept_witness :
  ∃ art,
    main false (fun _ _ => Raise ValueError) (fun _ _ => Raise ValueError)
         (fun _ _ _ => 0%Q) (Some [sample_pair]) = Ok (Some art) ∧
    resolution_intercept (resolution_model art) = (-0.2)%Q.
Proof.
  destruct (main false (fun _ _ => Raise ValueError) (fun _ _ => Raise ValueError)
                 (fun _ _ _ => 0%Q) (Some [sample_pair])) as [[art|]|] eqn:E;
    [|vm_compute in E; discriminate..].
  exists art. split; [reflexivity|].
  exact (main_resolution_intercept _ _ _ _ _ _ E).
Defined.

(** ** Feature extraction *)

(** C2: on the pair whose texts are all empty, both word sets are empty and
    [extract_features] does not return a keyword_overlap of 0: the
    division by the larger set size raises [ZeroDivisionError]. *)
Theorem extract_features_empty_texts :
  split (side_text (kalshi empty_pair)) = [] ∧
  split (side_text (polymarket empty_pair)) = [] ∧
  keyword_overlap_of (side_text (kalshi empty_pair))
                     (side_text (polymarket empty_pair))
    = Raise ZeroDivisionError ∧
  extract_features empty_pair = Raise ZeroDivisionError.
Proof. repeat split; vm_compute; reflexivity. Qed.

(** C9: the length_ratio computed by [extract_features] never divides by
    zero.  Each side's text contains the joining space, so both lengths
    are at least 1; the ratio is defined, lies in (0,1], and is the
    length_ratio of any feature vector that [extract_features] returns. *)
Theorem length_ratio_defined (pair : MarketPair) :
  let k_text := side_text (kalshi pair) in
  let p_text := side_text (polymarket pair) in
  (1 <= String.length k_text)%nat ∧ (1 <= String.length p_text)%nat ∧
  ∃ r, length_ratio_of k_text p_text = Ok r ∧ (0 < r)%Q ∧ (r <= 1)%Q ∧
       ∀ fv, extract_features pair = Ok fv -> length_ratio fv = r.
Proof.
  intros k_text p_text.
  assert (1 <= String.length k_text)%nat as Hk
    by (subst k_text; rewrite side_text_length; lia).
  assert (1 <= String.length p_text)%nat as Hp
    by (subst p_text; rewrite side_text_length; lia).
  split; [assumption|]. split; [assumption|].
  destruct (length_ratio_of_spec k_text p_text Hk Hp) as (r & Hr & Hlo & Hhi).
  exists r. repeat split; try assumption.
  intros fv. unfold extract_features. fold k_text p_text.
  destruct (keyword_overlap_of k_text p_text); [|discriminate].
  cbn [mbind result_bind]. rewrite Hr. cbn [mbind result_bind].
  destruct (volume_ratio_of _ _); [|discriminate].
  cbn [mbind result_bind]. intros [= <-]. reflexivity.
Qed.

(** C1 as stated fails: on [long_title_pair] the avg_word_count component
    of the normalised vector is 21/20, which is above 1. *)
Lemma normalized_features_above_one :
  valid_pair long_title_pair ∧
  ∃ fv, extract_features long_title_pair = Ok fv ∧
        to_array fv !! 10%nat = Some (21 / 20)%Q ∧
        ¬ Forall unit_interval (to_array fv).
Proof.
  split.
  - valid_by_computation.
  - destruct (extract_features long_title_pair) as [fv|] eqn:E;
      [|vm_compute in E; discriminate].
    exists fv. split; [reflexivity|].
    assert (to_array fv !! 10%nat = Some (21 / 20)%Q) as H10.
    { vm_compute in E. injection E as <-. reflexivity. }
    split; [exact H10|].
    intros HF. rewrite Forall_lookup in HF.
    destruct (HF _ _ H10) as [_ Habs]. now apply Habs.
Qed.

(** C1, amended: for a valid pair on which [extract_features] returns, the
    first ten components of the normalised vector are in [0,1], and all
    eleven are exactly when the kalshi title has at most 20 words. *)
Theorem normalized_features_unit (pair : MarketPair) (fv : FeatureVector) :
  valid_pair pair ->
  extract_features pair = Ok fv ->
  Forall unit_interval (take 10 (to_array fv)) ∧
  (Forall unit_interval (to_array fv)
   <-> (List.length (split (title (kalshi pair))) <= 20)%nat).
Proof.
  intros Hv H.
  destruct (extract_features_bounds _ _ Hv H) as (front & -> & Hlen & Hfront).
  split.
  - rewrite take_app_length' by (symmetry; assumption). assumption.
  - rewrite Forall_app, Forall_singleton, word_count_unit. tauto.
Qed.

Lemma normalized_features_unit_witness :
  valid_pair sample_pair ∧
  ∃ fv, extract_features sample_pair = Ok fv ∧
        Forall unit_interval (to_array fv).
Proof.
  assert (valid_pair sample_pair) as Hv
    by valid_by_computation.
  split; [exact Hv|].
  destruct (extract_features sample_pair) as [fv|] eqn:E;
    [|vm_compute in E; discriminate].
  exists fv. split; [reflexivity|].
  apply (normalized_features_unit sample_pair fv Hv E).
  vm_compute. lia.
Defined.

(** ** Augmentation *)

(** C4: for a factor of at least 1, whatever noise is drawn,
    [augment_training_data] returns factor times the rows and factor times
    the labels; the first rows and labels are the originals; a factor of 1
    returns the input; every entry of a row after the originals is in
    [0,1]. *)
Theorem augment_training_data_shape
    (noise : nat -> nat -> nat -> Q)
    (X : list (list Q)) (y : list Z) (factor : Z) :
  1 <= factor ->
  ∀ X_aug y_aug, augment_training_data noise X y factor = (X_aug, y_aug) ->
    Z.of_nat (List.length X_aug) = factor * Z.of_nat (List.length X) ∧
    Z.of_nat (List.length y_aug) = factor * Z.of_nat (List.length y) ∧
    take (List.length X) X_aug = X ∧
    take (List.length y) y_aug = y ∧
    (factor = 1 -> X_aug = X ∧ y_aug = y) ∧
    Forall (Forall unit_interval) (drop (List.length X) X_aug).
Proof.
  intros Hfactor X_aug y_aug. unfold augment_training_data, vstack, hstack.
  intros [= <- <-]. cbn [List.concat].
  set (rounds := seq 0 (Z.to_nat (factor - 1))).
  assert (List.length rounds = Z.to_nat (factor - 1)) as Hrounds
    by (subst rounds; apply length_seq).
  split_and!.
  - rewrite length_app, (length_blocks _ _ (List.length X)), Hrounds
      by (intros k; apply X_noisy_length).
    nia.
  - rewrite length_app, (length_blocks _ _ (List.length y)), Hrounds
      by reflexivity.
    nia.
  - apply take_app_length.
  - apply take_app_length.
  - intros ->. subst rounds. cbn. split; apply app_nil_r.
  - rewrite drop_app_length. apply Forall_concat, Forall_map, Forall_forall.
    intros k _. apply X_noisy_unit.
Qed.

Lemma augment_training_data_shape_witness :
  let X := [[0.5; 1]; [0; 0.25]]%Q in
  let y := [1; 0] in
  let noise := fun (k i j : nat) => (of_nat (k + i + j) - 2)%Q in
  1 <= 3 ∧
  ∃ X_aug y_aug,
    augment_training_data noise X y 3 = (X_aug, y_aug) ∧
    Z.of_nat (List.length X_aug) = 3 * Z.of_nat (List.length X) ∧
    Z.of_nat (List.length y_aug) = 3 * Z.of_nat (List.length y) ∧
    take (List.length X) X_aug = X ∧
    take (List.length y) y_aug = y ∧
    (3 = 1 -> X_aug = X ∧ y_aug = y) ∧
    Forall (Forall unit_interval) (drop (List.length X) X_aug).
Proof.
  intros X y noise. split; [lia|].
  destruct (augment_training_data noise X y 3) as [X_aug y_aug] eqn:E.
  exists X_aug, y_aug. split; [reflexivity|].
  apply (augment_training_data_shape noise X y 3); [lia|exact E].
Defined.

(** ** Evaluation *)

(** C5: on every evaluation input [evaluate_model] returns metrics, and in
    them precision is 0 when tp + fp = 0, recall is 0 when tp + fn = 0, and
    F1 is 0 when precision + recall is 0: no zero denominator is divided
    by. *)
Theorem evaluate_model_zero_denominators
    (X : list (list Q)) (y : list Z) (weights : list Q) (intercept : Q) :
  well_shaped X y weights ->
  ∃ m, evaluate_model X y weights intercept = Ok m ∧
    (tp (confusion_matrix m) + fp (confusion_matrix m) = 0 ->
     precision m = 0%Q) ∧
    (tp (confusion_matrix m) + fn (confusion_matrix m) = 0 ->
     recall m = 0%Q) ∧
    ((precision m + recall m == 0)%Q -> f1_score m = 0%Q).
Proof.
  intros Hshape.
  destruct (evaluate_model_Ok X y weights intercept Hshape)
    as (m & Hm & _ & _ & _ & _ & Hp & Hr & Hf).
  exists m. split; [exact Hm|]. repeat split.
  - intros Hz. now rewrite Hp, Hz.
  - intros Hz. now rewrite Hr, Hz.
  - intros Hz. rewrite Hf.
    destruct (Qlt_le_dec 0 (precision m + recall m)) as [Hpos|]; [|reflexivity].
    exfalso. apply (Qlt_not_eq _ _ Hpos). now symmetry.
Qed.

(** One row, predicted negative and labelled negative: all three
    denominators are zero. *)
Lemma evaluate_model_zero_denominators_witness :
  let X := [[1%Q]] in
  let y := [0] in
  let weights := [(-1)%Q] in
  well_shaped X y weights ∧
  ∃ m, evaluate_model X y weights 0 = Ok m ∧
    (tp (confusion_matrix m) + fp (confusion_matrix m) = 0 ->
     precision m = 0%Q) ∧
    (tp (confusion_matrix m) + fn (confusion_matrix m) = 0 ->
     recall m = 0%Q) ∧
    ((precision m + recall m == 0)%Q -> f1_score m = 0%Q).
Proof.
  intros X y weights.
  assert (well_shaped X y weights) as Hshape
    by (split; [repeat constructor|reflexivity]).
  split; [exact Hshape|].
  exact (evaluate_model_zero_denominators X y weights 0 Hshape).
Defined.

(** C8: on every evaluation input whose labels are 0 or 1,
    [evaluate_model] returns counts with tp + fp + fn + tn = len(y). *)
Theorem confusion_matrix_total
    (X : list (list Q)) (y : list Z) (weights : list Q) (intercept : Q) :
  well_shaped X y weights ->
  Forall is_label y ->
  ∃ m, evaluate_model X y weights intercept = Ok m ∧
    tp (confusion_matrix m) + fp (confusion_matrix m)
    + fn (confusion_matrix m) + tn (confusion_matrix m)
    = Z.of_nat (List.length y).
Proof.
  intros Hshape Hy.
  destruct (evaluate_model_Ok X y weights intercept Hshape)
    as (m & Hm & Htp & Hfp & Hfn & Htn & _).
  exists m. split; [exact Hm|]. rewrite Htp, Hfp, Hfn, Htn.
  apply cells_partition; [|  |exact Hy].
  - destruct Hshape as [_ ->]. now rewrite length_map.
  - apply Forall_map, Forall_forall. intros row _. apply predict_label.
Qed.

Lemma confusion_matrix_total_witness :
  let X := [[1; 0]; [0; 1]; [1; 1]; [0; 0]]%Q in
  let y := [1; 0; 0; 1] in
  let weights := [1; -1]%Q in
  well_shaped X y weights ∧ Forall is_label y ∧
  ∃ m, evaluate_model X y weights (-0.5) = Ok m ∧
    tp (confusion_matrix m) + fp (confusion_matrix m)
    + fn (confusion_matrix m) + tn (confusion_matrix m)
    = Z.of_nat (List.length y).
Proof.
  intros X y weights.
  assert (well_shaped X y weights) as Hshape
    by (split; [repeat constructor|reflexivity]).
  assert (Forall is_label y) as Hy
    by (repeat constructor; unfold is_label; lia).
  split; [exact Hshape|]. split; [exact Hy|].
  exact (confusion_matrix_total X y weights (-0.5) Hshape Hy).
Defined.

(** ** The five-pair scenario *)

(** C6: a dataset of five identical valid pairs, all labelled matched, on
    which the run yields neither 100 augmented rows nor a recall: the
    pairs have empty titles and descriptions, and building the feature
    matrix raises [ZeroDivisionError].  ([five_identical_pairs_scenario]
    gives the 100 rows and the recall of 100% whenever feature extraction
    returns.) *)
Theorem five_empty_pairs_raise :
  valid_pair empty_pair ∧ matched empty_pair = true ∧
  prepare_training_data (replicate 5 empty_pair) = Raise ZeroDivisionError ∧
  ∀ SKLEARN_AVAILABLE logistic_regression random_forest noise,
    main SKLEARN_AVAILABLE logistic_regression random_forest noise
         (Some (replicate 5 empty_pair)) = Raise ZeroDivisionError.
Proof.
  split; [valid_by_computation|]. split; [reflexivity|].
  assert (prepare_training_data (replicate 5 empty_pair)
          = Raise ZeroDivisionError) as E by (vm_compute; reflexivity).
  split; [exact E|]. intros flag lr rf noise. unfold main. now rewrite E.
Qed.

(** * Further properties *)

(** ** Feature extraction *)

Lemma extract_features_fields (pair : MarketPair) (fv : FeatureVector) :
  extract_features pair = Ok fv ->
  ∃ ko lr vr,
    keyword_overlap_of (side_text (kalshi pair)) (side_text (polymarket pair))
      = Ok ko ∧
    length_ratio_of (side_text (kalshi pair)) (side_text (polymarket pair))
      = Ok lr ∧
    volume_ratio_of (vol (kalshi pair)) (vol (polymarket pair)) = Ok vr ∧
    fv = {| title_similarity := 37.5;
            description_similarity := 50.0;
            keyword_overlap := ko;
            category_match := 1;
            timing_match := 1;
            sources_match :=
              sources_match_of (src (kalshi pair)) (src (polymarket pair));
            alignment_score := 82.0;
            volume_ratio := vr;
            price_correlation :=
              1 - Qabs (price (kalshi pair) - price (polymarket pair));
            length_ratio := lr;
            avg_word_count :=
              of_nat (List.length (split (title (kalshi pair)))) |}%Q.
Proof.
  unfold extract_features.
  destruct (keyword_overlap_of _ _) as [ko|]; [|discriminate].
  cbn [mbind result_bind].
  destruct (length_ratio_of _ _) as [lr|]; [|discriminate].
  cbn [mbind result_bind].
  destruct (volume_ratio_of _ _) as [vr|]; [|discriminate].
  cbn [mbind result_bind]. intros [= <-].
  exists ko, lr, vr. repeat split.
Qed.

Lemma keyword_overlap_of_comm (a b : string) :
  keyword_overlap_of a b = keyword_overlap_of b a.
Proof.
  unfold keyword_overlap_of.
  now rewrite (comm_L (∩) (word_set (split a))), Nat.max_comm.
Qed.

Lemma length_ratio_of_comm (a b : string) :
  length_ratio_of a b = length_ratio_of b a.
Proof. unfold length_ratio_of. now rewrite Nat.min_comm, Nat.max_comm. Qed.

Lemma py_min_comm (a b : Q) : (py_min a b == py_min b a)%Q.
Proof.
  unfold py_min. destruct (Qlt_le_dec b a), (Qlt_le_dec a b); lra.
Qed.

Lemma py_max_comm (a b : Q) : (py_max a b == py_max b a)%Q.
Proof.
  unfold py_max. destruct (Qlt_le_dec b a), (Qlt_le_dec a b); lra.
Qed.

Lemma volume_ratio_of_comm (a b r : Q) :
  volume_ratio_of a b = Ok r ->
  ∃ r', volume_ratio_of b a = Ok r' ∧ (r == r')%Q.
Proof.
  unfold volume_ratio_of. intros H. apply py_div_Ok in H as [Hnz ->].
  exists (py_min b a / py_max b a)%Q. split.
  - apply py_div_nonzero. now rewrite py_max_comm.
  - now rewrite py_min_comm, py_max_comm.
Qed.

Lemma existsb_both_comm {A} (f g : A -> bool) (l : list A) :
  existsb (fun x => f x && g x) l = existsb (fun x => g x && f x) l.
Proof.
  induction l as [|x l IH]; [reflexivity|].
  cbn [existsb]. now rewrite IH, (andb_comm (f x)).
Qed.

Lemma sources_match_of_comm (k p : string) :
  sources_match_of k p = sources_match_of p k.
Proof. unfold sources_match_of. now rewrite existsb_both_comm. Qed.

(** X1: exchanging the two venues of a pair does not change whether
    [extract_features] returns, and the first ten components of the
    normalised vector keep their values; only avg_word_count, which reads
    the kalshi title alone, depends on the order. *)
Theorem extract_features_swap (pair : MarketPair) (fv : FeatureVector) :
  extract_features pair = Ok fv ->
  ∃ fv', extract_features (swap_pair pair) = Ok fv' ∧
         Forall2 Qeq (take 10 (to_array fv)) (take 10 (to_array fv')) ∧
         avg_word_count fv'
         = of_nat (List.length (split (title (polymarket pair)))).
Proof.
  intros H.
  destruct (extract_features_fields _ _ H) as (ko & lr & vr & Hko & Hlr & Hvr & ->).
  destruct (volume_ratio_of_comm _ _ _ Hvr) as (vr' & Hvr' & Heq).
  eexists. split.
  - unfold extract_features. cbn [swap_pair kalshi polymarket].
    rewrite keyword_overlap_of_comm, Hko. cbn [mbind result_bind].
    rewrite length_ratio_of_comm, Hlr. cbn [mbind result_bind].
    rewrite Hvr'. cbn [mbind result_bind]. reflexivity.
  - split; [|reflexivity].
    cbn [to_array take title_similarity description_similarity keyword_overlap
         category_match timing_match sources_match alignment_score
         volume_ratio price_correlation length_ratio avg_word_count].
    rewrite (sources_match_of_comm (src (polymarket pair))), Qabs_Qminus.
    repeat (apply Forall2_cons; split; [first [exact Heq|reflexivity]|]).
    apply Forall2_nil_2.
Qed.

Lemma extract_features_swap_witness :
  ∃ fv, extract_features long_title_pair = Ok fv ∧
  ∃ fv', extract_features (swap_pair long_title_pair) = Ok fv' ∧
         Forall2 Qeq (take 10 (to_array fv)) (take 10 (to_array fv')) ∧
         avg_word_count fv'
         = of_nat (List.length (split (title (polymarket long_title_pair)))).
Proof.
  destruct (extract_features long_title_pair) as [fv|] eqn:E;
    [|vm_compute in E; discriminate].
  exists fv. split; [reflexivity|].
  exact (extract_features_swap long_title_pair fv E).
Defined.




Lemma sources_match_of_empty (p : string) : sources_match_of EmptyString p = 0%Q.
Proof. reflexivity. Qed.

(** X3: a pair in which either side has no ['source'] key never counts as
    a source match: sources_match is 0. *)
Theorem sources_match_missing (pair : MarketPair) (fv : FeatureVector) :
  source (kalshi pair) = None ∨ source (polymarket pair) = None ->
  extract_features pair = Ok fv ->
  sources_match fv = 0%Q.
Proof.
  intros Hnone H.
  destruct (extract_features_fields _ _ H) as (ko & lr & vr & _ & _ & _ & ->).
  cbn [sources_match]. unfold src.
  destruct Hnone as [-> | ->]; cbn [default lower].
  - apply sources_match_of_empty.
  - rewrite sources_match_of_comm. apply sources_match_of_empty.
Qed.

Lemma sources_match_missing_witness :
  let pair := {| kalshi := sample_side "Will the incumbent win";
                 polymarket := unsourced_side "Incumbent to win";
                 matched := true |} in
  ∃ fv, extract_features pair = Ok fv ∧ sources_match fv = 0%Q.
Proof.
  intros pair.
  destruct (extract_features pair) as [fv|] eqn:E;
    [|vm_compute in E; discriminate].
  exists fv. split; [reflexivity|].
  apply (sources_match_missing pair fv); [right; reflexivity|exact E].
Defined.

(** ** Building the training data *)

Lemma mapM_result_Ok {A B} (f : A -> result B) (xs : list A) (ys : list B) :
  mapM_result f xs = Ok ys <-> Forall2 (fun x y => f x = Ok y) xs ys.
Proof.
  revert ys. induction xs as [|x xs IH]; intros ys; cbn [mapM_result].
  - split; [intros [= <-]; constructor|intros H; now inversion H].
  - destruct (f x) as [b|e] eqn:Ex; cbn [mbind result_bind].
    + destruct (mapM_result f xs) as [bs|e] eqn:Exs; cbn [mbind result_bind].
      * split.
        -- intros [= <-]. constructor; [assumption|now apply IH].
        -- intros H. inversion H as [|? y ? ys' Hy Hys]; subst.
           apply IH in Hys. congruence.
      * split; [discriminate|].
        intros H. inversion H as [|? y ? ys' Hy Hys]; subst.
        apply IH in Hys. discriminate.
    + split; [discriminate|].
      intros H. inversion H; subst. congruence.
Qed.


Lemma to_array_length (fv : FeatureVector) : List.length (to_array fv) = 11%nat.
Proof. reflexivity. Qed.

Lemma prepare_training_data_Ok
    (pairs : list MarketPair) (X : list (list Q)) (y : list Z) :
  prepare_training_data pairs = Ok (X, y) ->
  Forall2 (fun pair row =>
             ∃ fv, extract_features pair = Ok fv ∧ row = to_array fv) pairs X ∧
  y = map (fun pair => if matched pair then 1 else 0) pairs.
Proof.
  unfold prepare_training_data.
  destruct (mapM_result _ pairs) as [rows|] eqn:E; [|discriminate].
  cbn [mbind result_bind]. intros [= <- <-].
  apply mapM_result_Ok in E. split; [|reflexivity].
  eapply Forall2_impl; [exact E|]. intros pair row Hrow. cbn beta in Hrow.
  destruct (extract_features pair) as [fv|]; [|discriminate].
  injection Hrow as <-. now exists fv.
Qed.

Lemma prepare_training_data_well_shaped
    (pairs : list MarketPair) (X : list (list Q)) (y : list Z)
    (weights : list Q) :
  prepare_training_data pairs = Ok (X, y) ->
  List.length weights = 11%nat -> well_shaped X y weights.
Proof.
  intros H Hw. destruct (prepare_training_data_Ok _ _ _ H) as [Hrows ->].
  split.
  - apply Forall_forall. intros row Hrow.
    apply list_elem_of_lookup in Hrow as [i Hi].
    destruct (Forall2_lookup_r _ pairs X i row Hrows Hi)
      as (pair & _ & fv & _ & ->).
    now rewrite Hw.
  - rewrite length_map. eapply Forall2_length, Hrows.
Qed.




(** ** Augmentation *)

Lemma X_noisy_widths noise (k n : nat) (X : list (list Q)) :
  Forall (fun row => List.length row = n) X ->
  Forall (fun row => List.length row = n) (X_noisy noise k X).
Proof.
  intros H. unfold X_noisy. apply Forall_forall. intros row Hrow.
  apply elem_of_lookup_imap in Hrow as (i & r & -> & Hi).
  rewrite length_imap. rewrite Forall_forall in H. apply H.
  eapply list_elem_of_lookup_2, Hi.
Qed.

Lemma rounds_nonpos (factor : Z) :
  factor <= 1 -> seq 0 (Z.to_nat (factor - 1)) = [].
Proof. intros H. now replace (Z.to_nat (factor - 1)) with 0%nat by lia. Qed.

(** X6: a factor of 1 or less, zero and negative factors included, makes
    no copy: [augment_training_data] returns [X] and [y] as they are. *)
Theorem augment_training_data_small_factor
    (noise : nat -> nat -> nat -> Q)
    (X : list (list Q)) (y : list Z) (factor : Z) :
  factor <= 1 -> augment_training_data noise X y factor = (X, y).
Proof.
  intros H. unfold augment_training_data, vstack, hstack.
  rewrite (rounds_nonpos factor H). cbn [map List.concat].
  now rewrite !app_nil_r.
Qed.

Lemma augment_training_data_small_factor_witness :
  -3 <= 1 ∧
  augment_training_data (fun _ _ _ => 0.05%Q) [[0.5; 1]]%Q [1] (-3)
  = ([[0.5; 1]]%Q, [1]).
Proof.
  split; [lia|]. apply augment_training_data_small_factor. lia.
Defined.

(** X7: augmentation keeps the shape of an evaluation input: every row of
    the augmented matrix has as many entries as there are weights, and the
    augmented labels are as many as the augmented rows; this holds for
    every factor and every noise. *)
Theorem augment_training_data_well_shaped
    (noise : nat -> nat -> nat -> Q)
    (X : list (list Q)) (y : list Z) (factor : Z) (weights : list Q) :
  well_shaped X y weights ->
  well_shaped (augment_training_data noise X y factor).1
              (augment_training_data noise X y factor).2 weights.
Proof.
  intros [Hrows Hy]. unfold augment_training_data, vstack, hstack.
  cbn [fst snd List.concat]. split.
  - apply Forall_app. split; [exact Hrows|].
    apply Forall_concat, Forall_map, Forall_forall. intros k _.
    now apply X_noisy_widths.
  - rewrite !length_app, !(length_blocks _ _ (List.length X))
      by (intros k; first [apply X_noisy_length|exact Hy]).
    now rewrite Hy.
Qed.

Lemma augment_training_data_well_shaped_witness :
  let X := [[0.5; 1]; [0; 0.25]]%Q in
  let y := [1; 0] in
  let weights := [1; -1]%Q in
  let noise := fun (k i j : nat) => (of_nat (k + i + j) - 2)%Q in
  well_shaped X y weights ∧
  well_shaped (augment_training_data noise X y 3).1
              (augment_training_data noise X y 3).2 weights.
Proof.
  intros X y weights noise.
  assert (well_shaped X y weights) as Hshape
    by (split; [repeat constructor|reflexivity]).
  split; [exact Hshape|].
  exact (augment_training_data_well_shaped noise X y 3 weights Hshape).
Defined.

(** Position [i] of a stack of blocks of [n] entries each is position
    [i mod n] of block [i / n]. *)
Lemma lookup_blocks {A} (blocks : list (list A)) (n i : nat) :
  (0 < n)%nat ->
  Forall (fun b => List.length b = n) blocks ->
  List.concat blocks !! i
  = blocks !! (i / n)%nat ≫= (fun b => b !! (i mod n)%nat).
Proof.
  intros Hn Hblocks. revert i.
  induction Hblocks as [|b bs Hb _ IH]; intros i; [reflexivity|].
  cbn [List.concat]. destruct (Nat.lt_ge_cases i n) as [Hlt|Hge].
  - rewrite lookup_app_l by lia.
    now rewrite (Nat.div_small i n Hlt), (Nat.mod_small i n Hlt).
  - rewrite lookup_app_r, Hb, IH by lia.
    assert (i / n = S ((i - n) / n))%nat as ->.
    { replace i with ((i - n) + 1 * n)%nat at 1 by lia.
      rewrite Nat.div_add by lia. lia. }
    assert (i mod n = (i - n) mod n)%nat as ->.
    { replace i with ((i - n) + 1 * n)%nat at 1 by lia.
      apply Nat.Div0.mod_add. }
    reflexivity.
Qed.

(** X8: rows and labels stay aligned under augmentation.  With one label
    per row and [n] rows, the label at position [i] of the augmented
    labels is the label of original row [i mod n], and the row at
    position [i] of the augmented matrix is that original row itself when
    [i < n], and otherwise that row with the entries of draw [i / n - 1]
    added and clipped to [0,1]. *)
Theorem augment_training_data_aligned
    (noise : nat -> nat -> nat -> Q)
    (X : list (list Q)) (y : list Z) (factor : Z) (i : nat) (label : Z) :
  List.length y = List.length X ->
  (augment_training_data noise X y factor).2 !! i = Some label ->
  let n := List.length X in
  ∃ orig,
    X !! (i mod n)%nat = Some orig ∧
    y !! (i mod n)%nat = Some label ∧
    (augment_training_data noise X y factor).1 !! i
    = Some (if (i <? n)%nat then orig
            else imap (fun j v =>
                         clip (v + noise (i / n - 1)%nat (i mod n)%nat j) 0 1)
                      orig).
Proof.
  intros Hy Hlabel n. unfold augment_training_data, vstack, hstack in *.
  cbn [fst snd] in *.
  set (rounds := seq 0 (Z.to_nat (factor - 1))) in *.
  assert (0 < n)%nat as Hn.
  { destruct (Nat.eq_dec n 0%nat) as [Hz|]; [|lia]. exfalso.
    apply lookup_lt_Some in Hlabel. cbn [List.concat] in Hlabel.
    rewrite length_app, (length_blocks _ _ (List.length y)) in Hlabel
      by reflexivity.
    fold n in Hy. nia. }
  assert (Forall (fun b => List.length b = n) (y :: map (fun _ => y) rounds))
    as Hyblocks.
  { constructor; [exact Hy|].
    apply Forall_map, Forall_forall. intros k _. exact Hy. }
  assert (Forall (fun b => List.length b = n)
                 (X :: map (fun k => X_noisy noise k X) rounds)) as HXblocks.
  { constructor; [reflexivity|].
    apply Forall_map, Forall_forall. intros k _. apply X_noisy_length. }
  rewrite (lookup_blocks _ n i Hn Hyblocks) in Hlabel.
  rewrite (lookup_blocks _ n i Hn HXblocks).
  assert (i mod n < n)%nat as Hmod by (apply Nat.mod_upper_bound; lia).
  destruct (lookup_lt_is_Some X (i mod n)) as [_ [orig Horig]]; [exact Hmod|].
  exists orig. split; [exact Horig|].
  destruct (i / n)%nat as [|q] eqn:Hq.
  - cbn [lookup list_lookup mbind option_bind] in Hlabel |- *.
    apply Nat.div_small_iff in Hq; [|lia].
    rewrite (proj2 (Nat.ltb_lt i n) Hq). now split.
  - rewrite !lookup_cons_ne_0 in * by lia. cbn [Nat.pred] in *.
    rewrite !list_lookup_fmap in *.
    destruct (rounds !! q) as [k|] eqn:Hk; [|discriminate].
    cbn [fmap option_fmap option_map mbind option_bind] in Hlabel |- *.
    apply lookup_seq in Hk as [-> _]. cbn [Nat.add].
    split; [exact Hlabel|].
    assert (n <= i)%nat as Hge.
    { destruct (Nat.lt_ge_cases i n) as [Hlt|]; [|assumption].
      rewrite (Nat.div_small i n Hlt) in Hq. discriminate. }
    rewrite (proj2 (Nat.ltb_ge i n) Hge).
    unfold X_noisy. rewrite list_lookup_imap, Horig. cbn.
    now rewrite Nat.sub_0_r.
Qed.

Lemma augment_training_data_aligned_witness :
  let X := [[0.5; 1]; [0; 0.25]]%Q in
  let y := [1; 0] in
  let noise := fun (k i j : nat) => (of_nat (k + i + j) - 2)%Q in
  List.length y = List.length X ∧
  (augment_training_data noise X y 3).2 !! 5%nat = Some 0 ∧
  ∃ orig,
    X !! (5 mod 2)%nat = Some orig ∧
    y !! (5 mod 2)%nat = Some 0 ∧
    (augment_training_data noise X y 3).1 !! 5%nat
    = Some (if (5 <? 2)%nat then orig
            else imap (fun j v =>
                         clip (v + noise (5 / 2 - 1)%nat (5 mod 2)%nat j) 0 1)
                      orig).
Proof.
  intros X y noise. split; [reflexivity|]. split; [reflexivity|].
  exact (augment_training_data_aligned noise X y 3 5 0 eq_refl eq_refl).
Defined.




(** ** Evaluation *)

Lemma count_nonneg (mask : list bool) : 0 <= count mask.
Proof. unfold count. lia. Qed.

Lemma hits_count (predictions y : list Z) :
  List.length predictions = List.length y ->
  Forall is_label predictions -> Forall is_label y ->
  count (zip_with Z.eqb predictions y)
  = cell predictions y 1 1 + cell predictions y 0 0.
Proof.
  revert y. induction predictions as [|p ps IH]; intros [|l ls] Hlen Hps Hls;
    try discriminate; [reflexivity|].
  apply Forall_cons_1 in Hps as [Hp Hps]. apply Forall_cons_1 in Hls as [Hl Hls].
  injection Hlen as Hlen. specialize (IH ls Hlen Hps Hls).
  unfold cell in *. cbn [map zip_with]. rewrite !count_cons.
  destruct Hp as [-> | ->], Hl as [-> | ->]; cbn; lia.
Qed.

(** The accuracy that [evaluate_model] returns on an evaluation input. *)
Lemma evaluate_model_accuracy_Ok (X : list (list Q)) (y : list Z)
    (weights : list Q) (intercept : Q) :
  well_shaped X y weights ->
  let predictions := map (fun row => predict (dot row weights + intercept)) X in
  ∃ m, evaluate_model X y weights intercept = Ok m ∧
       accuracy m = np_scale (mean (zip_with Z.eqb predictions y)) 100.
Proof.
  intros [Hrows Hy] predictions. unfold evaluate_model.
  rewrite (matmul_Ok _ _ Hrows). cbn [mbind result_bind].
  rewrite !map_map. fold predictions.
  assert (List.length predictions = List.length y) as Hlen
    by (subst predictions; now rewrite length_map).
  rewrite (broadcast_same_length _ _ _ Hlen). cbn [mbind result_bind].
  rewrite !(count_both_Ok _ _ _ _ Hlen). cbn [mbind result_bind].
  destruct (guarded_ratio_Ok (cell predictions y 1 1)
              (cell predictions y 1 1 + cell predictions y 1 0)) as [P ->].
  cbn [mbind result_bind].
  destruct (guarded_ratio_Ok (cell predictions y 1 1)
              (cell predictions y 1 1 + cell predictions y 0 1)) as [R ->].
  cbn [mbind result_bind].
  destruct (guarded_f1_Ok P R) as [F ->]. cbn [mbind result_bind].
  eexists. split; reflexivity.
Qed.

(** X11: on an evaluation input with labels 0 or 1, the accuracy is the
    share of rows counted as tp or tn, times 100; on the empty input it is
    [nan] (the mean of an empty array), while the call still returns. *)
Theorem evaluate_model_accuracy
    (X : list (list Q)) (y : list Z) (weights : list Q) (intercept : Q) :
  well_shaped X y weights ->
  Forall is_label y ->
  ∃ m, evaluate_model X y weights intercept = Ok m ∧
    (y = [] -> accuracy m = NaN) ∧
    (y ≠ [] ->
     ∃ a, accuracy m = Fin a ∧
          (a == inject_Z (tp (confusion_matrix m) + tn (confusion_matrix m))
                / of_nat (List.length y) * 100)%Q).
Proof.
  intros Hshape Hlabels.
  destruct (evaluate_model_accuracy_Ok X y weights intercept Hshape)
    as (m & Hm & Hacc).
  destruct (evaluate_model_Ok X y weights intercept Hshape)
    as (m' & Hm' & Htp & _ & _ & Htn & _).
  rewrite Hm in Hm'. injection Hm' as <-.
  exists m. split; [exact Hm|].
  set (predictions := map (fun row => predict (dot row weights + intercept)) X)
    in *.
  assert (List.length predictions = List.length y) as Hlen.
  { subst predictions. rewrite length_map. symmetry. apply Hshape. }
  assert (Forall is_label predictions) as Hpred.
  { subst predictions. apply Forall_map, Forall_forall.
    intros row _. apply predict_label. }
  split.
  - intros ->. destruct predictions; [|discriminate]. now rewrite Hacc.
  - intros Hne. rewrite Hacc, Htp, Htn, <- (hits_count _ _ Hlen Hpred Hlabels).
    assert (List.length (zip_with Z.eqb predictions y) = List.length y) as Hz
      by (rewrite length_zip_with; lia).
    destruct (zip_with Z.eqb predictions y) as [|h hits] eqn:Ez.
    + destruct y; [contradiction|discriminate].
    + cbn [mean np_scale]. eexists. split; [reflexivity|]. now rewrite Hz.
Qed.

Lemma evaluate_model_accuracy_witness :
  let X := [[1; 0]; [0; 1]; [1; 1]; [0; 0]]%Q in
  let y := [1; 0; 0; 1] in
  let weights := [1; -1]%Q in
  well_shaped X y weights ∧ Forall is_label y ∧
  ∃ m, evaluate_model X y weights (-0.5) = Ok m ∧
    (y = [] -> accuracy m = NaN) ∧
    (y ≠ [] ->
     ∃ a, accuracy m = Fin a ∧
          (a == inject_Z (tp (confusion_matrix m) + tn (confusion_matrix m))
                / of_nat (List.length y) * 100)%Q).
Proof.
  intros X y weights.
  assert (well_shaped X y weights) as Hshape
    by (split; [repeat constructor|reflexivity]).
  assert (Forall is_label y) as Hy
    by (repeat constructor; unfold is_label; lia).
  split; [exact Hshape|]. split; [exact Hy|].
  exact (evaluate_model_accuracy X y weights (-0.5) Hshape Hy).
Defined.

Lemma cell_nonneg (predictions y : list Z) (a b : Z) :
  0 <= cell predictions y a b.
Proof. apply count_nonneg. Qed.

Lemma guarded_ratio_percentage (a d : Z) :
  0 <= a <= d ->
  percentage (if 0 <? d then inject_Z a / inject_Z d * 100 else 0)%Q.
Proof.
  intros [Ha Had]. destruct (0 <? d) eqn:E; [|split; discriminate].
  apply Z.ltb_lt in E.
  destruct (ratio_unit (inject_Z a) (inject_Z d)) as [H0 H1].
  - change 0%Q with (inject_Z 0). now rewrite <- Zle_Qle.
  - now rewrite <- Zle_Qle.
  - now apply inject_Z_nonzero.
  - set (q := (inject_Z a / inject_Z d)%Q) in *. clearbody q. split; lra.
Qed.

Lemma f1_percentage (p r : Q) :
  percentage p -> percentage r ->
  percentage (if Qlt_le_dec 0 (p + r) then 2 * p * r / (p + r) else 0)%Q.
Proof.
  intros [Hp0 Hp1] [Hr0 Hr1].
  destruct (Qlt_le_dec 0 (p + r)) as [Hpos|]; [|split; discriminate].
  split.
  - apply Qle_shift_div_l; [exact Hpos|]. nra.
  - apply Qle_shift_div_r; [exact Hpos|]. nra.
Qed.

(** X12: on an evaluation input, the precision, the recall and the F1
    score that [evaluate_model] returns are percentages: each lies between
    0 and 100. *)
Theorem evaluate_model_percentages
    (X : list (list Q)) (y : list Z) (weights : list Q) (intercept : Q) :
  well_shaped X y weights ->
  ∃ m, evaluate_model X y weights intercept = Ok m ∧
       percentage (precision m) ∧ percentage (recall m) ∧
       percentage (f1_score m).
Proof.
  intros Hshape.
  destruct (evaluate_model_Ok X y weights intercept Hshape)
    as (m & Hm & Htp & Hfp & Hfn & _ & Hp & Hr & Hf).
  set (predictions := map (fun row => predict (dot row weights + intercept)) X)
    in *.
  pose proof (cell_nonneg predictions y 1 1) as H11.
  pose proof (cell_nonneg predictions y 1 0) as H10.
  pose proof (cell_nonneg predictions y 0 1) as H01.
  assert (percentage (precision m)) as HP
    by (rewrite Hp; apply guarded_ratio_percentage; lia).
  assert (percentage (recall m)) as HR
    by (rewrite Hr; apply guarded_ratio_percentage; lia).
  exists m. split; [exact Hm|]. split; [exact HP|]. split; [exact HR|].
  rewrite Hf. now apply f1_percentage.
Qed.

Lemma evaluate_model_percentages_witness :
  let X := [[1; 0]; [0; 1]; [1; 1]; [0; 0]]%Q in
  let y := [1; 0; 0; 1] in
  let weights := [1; -1]%Q in
  well_shaped X y weights ∧
  ∃ m, evaluate_model X y weights (-0.5) = Ok m ∧
       percentage (precision m) ∧ percentage (recall m) ∧
       percentage (f1_score m).
Proof.
  intros X y weights.
  assert (well_shaped X y weights) as Hshape
    by (split; [repeat constructor|reflexivity]).
  split; [exact Hshape|].
  exact (evaluate_model_percentages X y weights (-0.5) Hshape).
Defined.

(** ** The fallback model on prepared data *)





(** ** The run without scikit-learn *)

(** X14: without scikit-learn, a run on a non-empty data set fails only
    where feature extraction fails, with the same error.  Otherwise it
    exports the fallback weights both as the matching weights and as the
    resolution importances, the intercepts -0.3 and -0.2, the metrics of
    the fallback model on the original rows, and the sample counts [n]
    and [20 * n]; neither the noise nor the estimators matter.  (The
    empty data set is left out: numpy builds a 1-d array for it, which a
    list of rows does not represent.) *)
Theorem main_fallback
    (logistic_regression random_forest :
       list (list Q) -> list Z -> result (list Q * Q))
    (noise : nat -> nat -> nat -> Q) (pairs : list MarketPair) :
  pairs ≠ [] ->
  match prepare_training_data pairs with
  | Raise e =>
      main false logistic_regression random_forest noise (Some pairs) = Raise e
  | Ok (X, y) =>
      ∃ m, evaluate_model X y (estimate_weights_simple X y).1
                              (estimate_weights_simple X y).2 = Ok m ∧
        main false logistic_regression random_forest noise (Some pairs)
        = Ok (Some
            {| matching_model :=
                 {| weights := (estimate_weights_simple X y).1;
                    intercept := (-0.3)%Q;
                    metrics := m |};
               resolution_model :=
                 {| resolution_importances := (estimate_weights_simple X y).1;
                    resolution_intercept := (-0.2)%Q |};
               feature_names := the_feature_names;
               training_info :=
                 {| n_samples := List.length pairs;
                    n_augmented := (20 * List.length pairs)%nat;
                    sklearn_available := false |} |})
  end.
Proof.
  intros _. destruct (prepare_training_data pairs) as [[X y]|e] eqn:E.
  - assert (well_shaped X y (estimate_weights_simple X y).1) as Hshape
      by now apply (prepare_training_data_well_shaped pairs).
    destruct (evaluate_model_Ok _ _ _ (estimate_weights_simple X y).2 Hshape)
      as (m & Hm & _).
    exists m. split; [exact Hm|].
    unfold main. rewrite E. cbn [mbind result_bind].
    pose proof (augment_training_data_lengths noise X y 20) as [_ Hlen]; [lia|].
    destruct (augment_training_data noise X y 20) as [X_aug y_aug].
    cbn [snd] in Hlen.
    unfold train_logistic_weights, train_random_forest. cbn [negb].
    change (estimate_weights_simple X_aug y_aug)
      with (estimate_weights_simple X y).
    unfold estimate_weights_simple in Hm |- *.
    cbn [fst snd mbind result_bind] in Hm |- *.
    rewrite Hm. cbn [mbind result_bind feature_importances].
    rewrite Hlen. destruct Hshape as [_ ->].
    destruct (prepare_training_data_Ok _ _ _ E) as [Hrows _].
    rewrite <- (Forall2_length _ _ _ Hrows). reflexivity.
  - unfold main. now rewrite E.
Qed.

Lemma main_fallback_witness :
  let pairs := [sample_pair; long_title_pair] in
  let stub := fun (_ : list (list Q)) (_ : list Z) =>
                Raise ValueError : result (list Q * Q) in
  let noise := fun (k i j : nat) => (of_nat (k + i + j) - 2)%Q in
  pairs ≠ [] ∧
  match prepare_training_data pairs with
  | Raise e => main false stub stub noise (Some pairs) = Raise e
  | Ok (X, y) =>
      ∃ m, evaluate_model X y (estimate_weights_simple X y).1
                              (estimate_weights_simple X y).2 = Ok m ∧
        main false stub stub noise (Some pairs)
        = Ok (Some
            {| matching_model :=
                 {| weights := (estimate_weights_simple X y).1;
                    intercept := (-0.3)%Q;
                    metrics := m |};
               resolution_model :=
                 {| resolution_importances := (estimate_weights_simple X y).1;
                    resolution_intercept := (-0.2)%Q |};
               feature_names := the_feature_names;
               training_info :=
                 {| n_samples := List.length pairs;
                    n_augmented := (20 * List.length pairs)%nat;
                    sklearn_available := false |} |})
  end.
Proof.
  intros pairs stub noise. split; [discriminate|].
  apply (main_fallback stub stub noise pairs). discriminate.
Defined.

(** ** Letter case *)

Lemma lower_append (s t : string) : lower (s +:+ t) = lower s +:+ lower t.
Proof. induction s as [|c s IH]; simpl; [reflexivity|]. now rewrite IH. Qed.

Lemma is_space_lower (c : ascii) : is_space (lower_char c) = is_space c.
Proof. destruct c as [[] [] [] [] [] [] [] []]; reflexivity. Qed.

Lemma snoc_nonempty (cur : string) (c : ascii) :
  cur +:+ String c EmptyString ≠ EmptyString.
Proof. destruct cur; discriminate. Qed.

(** Lower-casing a string keeps its number of words. *)
Lemma split_from_lower (s cur cur' : string) :
  (cur = EmptyString <-> cur' = EmptyString) ->
  List.length (split_from cur s) = List.length (split_from cur' (lower s)).
Proof.
  revert cur cur'. induction s as [|c s IH]; intros cur cur' Hcur;
    cbn [lower split_from].
  - destruct (decide (cur = EmptyString)), (decide (cur' = EmptyString));
      tauto || reflexivity.
  - rewrite is_space_lower. destruct (is_space c).
    + destruct (decide (cur = EmptyString)), (decide (cur' = EmptyString));
        try tauto; cbn [List.length]; now rewrite (IH EmptyString EmptyString).
    + apply IH. split; intros H; now apply snoc_nonempty in H.
Qed.

Lemma word_count_lower (s : string) :
  List.length (split s) = List.length (split (lower s)).
Proof. now apply split_from_lower. Qed.

Lemma side_text_lower (side : MarketSide) :
  side_text side = lower (title side) +:+ " " +:+ lower (description side).
Proof. unfold side_text. now rewrite !lower_append. Qed.

(** X15: [extract_features] does not see the case of letters: two pairs
    whose titles, descriptions and sources differ only in case, with the
    same volumes and prices, give the same result, feature vector or
    error. *)
Theorem extract_features_case_insensitive (pair pair' : MarketPair) :
  case_variant (kalshi pair) (kalshi pair') ->
  case_variant (polymarket pair) (polymarket pair') ->
  extract_features pair = extract_features pair'.
Proof.
  intros (Hkt & Hkd & Hks & Hkv & Hkp) (Hpt & Hpd & Hps & Hpv & Hpp).
  unfold extract_features, vol, price, src.
  rewrite !side_text_lower, Hkt, Hkd, Hpt, Hpd, Hks, Hps, Hkv, Hkp, Hpv, Hpp.
  now rewrite (word_count_lower (title (kalshi pair))), Hkt, <- word_count_lower.
Qed.

Lemma extract_features_case_insensitive_witness :
  let upper := {| kalshi := sample_side "WILL The Incumbent WIN";
                  polymarket := sample_side "Incumbent To Win";
                  matched := true |} in
  case_variant (kalshi upper) (kalshi sample_pair) ∧
  case_variant (polymarket upper) (polymarket sample_pair) ∧
  extract_features upper = extract_features sample_pair.
Proof.
  intros upper.
  assert (case_variant (kalshi upper) (kalshi sample_pair)) as Hk
    by (repeat split).
  assert (case_variant (polymarket upper) (polymarket sample_pair)) as Hp
    by (repeat split).
  split; [exact Hk|]. split; [exact Hp|].
  exact (extract_features_case_insensitive upper sample_pair Hk Hp).
Defined.

(** ** Top values of the similarity features *)







